(** * DataTable helpers of cuba-react: column generation and the translation
      of antd table state (filters, sorter, pagination) into the query state
      of a data collection store.

    The development embeds the functions of the DataTable helpers module
    (generateColumnWithCustomFilter, generateEnumFilter,
    generateCustomFilterDropdown, renderCell, setFilters, setSorter,
    setPagination, handleTableChange, entityFilterToTableFilters) and proves
    the properties claimed for them.

    Modelling decisions, fixed once for the whole file:
    - JavaScript strings are [string]; the string methods used by the code
      ([endsWith], [indexOf], [substring]) are written out with the clamping
      and the [-1] result that ECMAScript prescribes.
    - JavaScript numbers that the code computes with (page size, page index)
      are integers, modelled in [Z].
    - Values of type [any] are JSON-like trees ([jsval]): condition values
      travel to the REST API as JSON, so cyclic objects are left out and
      [JSON.stringify] is total on them.
    - Objects used as string-keyed records ([Record<string, ...>]) are
      [gmap string _]; their keys are entity attribute names, none of which
      is a member of [Object.prototype].
    - A thrown exception is the [Err] case of [result]; code that also writes
      to the data collection store runs in the state-and-exception monad [M],
      whose state is the store together with the log of the assignments and
      method calls performed on it. The store is the one mutable object of
      the module; every other argument is only read, and is passed by value.
    - Functions imported from other modules ([JSON], [getPropertyInfoNN],
      [getPropertyCaption], [DataTableCell], mobx [toJS], the store's [load]
      method) are the fields of the class [Externals]; the theorems hold for
      every instance, and [Sample] is one instance to compute with. *)

From Stdlib Require Import ZArith Ascii.
From stdpp Require Import base option list strings pretty gmap.

Set Warnings "-register-all".
Local Open Scope Z_scope.

(** ** JavaScript values *)

Inductive jsval : Type :=
  | JUndefined
  | JNull
  | JBool (b : bool)
  | JNum (n : Z)
  | JStr (s : string)
  | JArr (elems : list jsval)
  | JObj (fields : list (string * jsval)).

Inductive JSError : Type :=
  | TypeError
  | SyntaxError
  | Error (message : string).

(** Completion of a computation without side effects: a value or a throw. *)
Inductive result (A : Type) : Type :=
  | Ok (a : A)
  | Err (e : JSError).
Arguments Ok {A} a.
Arguments Err {A} e.

#[export] Instance result_ret : MRet result := fun A a => Ok a.
#[export] Instance result_bind : MBind result := fun A B f r =>
  match r with
  | Ok a => f a
  | Err e => Err e
  end.
#[export] Instance result_fmap : FMap result := fun A B f r =>
  match r with
  | Ok a => Ok (f a)
  | Err e => Err e
  end.

(** ToBoolean. *)
Definition js_truthy (v : jsval) : bool :=
  match v with
  | JUndefined | JNull => false
  | JBool b => b
  | JNum n => negb (n =? 0)
  | JStr s => negb (String.eqb s "")
  | JArr _ | JObj _ => true
  end.

(** [v === s] for a string literal [s]. *)
Definition js_strict_eq_str (v : jsval) (s : string) : bool :=
  match v with
  | JStr t => String.eqb t s
  | _ => false
  end.

(** Own property [k] of an object literal; a later binding of the same key
    wins, as in an object initialiser. *)
Fixpoint obj_lookup (k : string) (fields : list (string * jsval)) : option jsval :=
  match fields with
  | [] => None
  | (k', v) :: rest =>
      match obj_lookup k rest with
      | Some v' => Some v'
      | None => if String.eqb k k' then Some v else None
      end
  end.

(** The property read performed by a destructuring pattern [{k} = v]:
    a TypeError on [undefined] and [null], the own property on an object,
    and [undefined] on the other values (the keys read by the code,
    [operator], [value], [minDate], [maxDate], are no members of the
    built-in prototypes). *)
Definition js_get (v : jsval) (k : string) : result jsval :=
  match v with
  | JUndefined | JNull => Err TypeError
  | JObj fields => Ok (default JUndefined (obj_lookup k fields))
  | JBool _ | JNum _ | JStr _ | JArr _ => Ok JUndefined
  end.

(** ** JavaScript string methods *)

Module JSString.

(** [s.endsWith(suffix)] *)
Definition endsWith (s suffix : string) : bool :=
  let n := String.length s in
  let m := String.length suffix in
  (m <=? n)%nat && String.eqb (String.substring (n - m) m s) suffix.

(** [s.indexOf(search)] from position [i]: the index of the first
    occurrence, [-1] when there is none. *)
Fixpoint indexOf_from (s search : string) (i : Z) : Z :=
  if String.prefix search s then i
  else match s with
       | EmptyString => -1
       | String _ s' => indexOf_from s' search (i + 1)
       end.

Definition indexOf (s search : string) : Z := indexOf_from s search 0.

(** [s.substring(a, b)]: both indices are clamped to [0, length], and
    swapped when [a > b]. *)
Definition substring (s : string) (a b : Z) : string :=
  let len := Z.of_nat (String.length s) in
  let a' := Z.min (Z.max a 0) len in
  let b' := Z.min (Z.max b 0) len in
  let from := Z.min a' b' in
  let to := Z.max a' b' in
  String.substring (Z.to_nat from) (Z.to_nat (to - from)) s.

End JSString.

(** ** Types of @cuba-platform/rest and antd used by the helpers *)

(** [Condition]: [operator] and [value] hold whatever the caller or
    [JSON.parse] supplies. *)
Record Condition : Type := mkCondition {
  property : string;
  operator : jsval;
  value : jsval
}.

Record ConditionsGroup : Type := mkConditionsGroup {
  group : string;
  group_conditions : list Condition
}.

(** An element of [EntityFilter.conditions]: [Condition | ConditionsGroup]. *)
Inductive ConditionOrGroup : Type :=
  | Plain (c : Condition)
  | Nested (g : ConditionsGroup).

Record EntityFilter : Type := mkEntityFilter {
  conditions : list ConditionOrGroup
}.

Record MetaPropertyInfo : Type := mkMetaPropertyInfo {
  mp_name : string;
  mp_type : string;
  attributeType : string
}.

Record MetaClassInfo : Type := mkMetaClassInfo {
  mc_entityName : string;
  mc_properties : list MetaPropertyInfo
}.

Record EnumValueInfo : Type := mkEnumValueInfo {
  ev_name : string;
  ev_caption : string
}.

Record EnumInfo : Type := mkEnumInfo {
  en_name : string;
  en_values : list EnumValueInfo
}.

(** [MainStore]: the observable fields read by the helpers; each may still
    be [undefined] while the application loads. *)
Record MainStore : Type := mkMainStore {
  metadata : option (list MetaClassInfo);
  messages : option (gmap string string);
  enums : option (list EnumInfo)
}.

Inductive SortOrder : Type := ascend | descend.

(** [SorterResult]: antd passes an object without [order] when no column
    is sorted. *)
Record SorterResult : Type := mkSorterResult {
  order : option SortOrder;
  field : string;
  columnKey : string
}.

Record PaginationConfig : Type := mkPaginationConfig {
  pageSize : option Z;
  current : option Z
}.

(** ** The data collection store *)

(** [DataCollectionStore]: the fields the helpers read or write, and
    [others] for every remaining field (items, status, view, count, ...). *)
Record DataCollectionStore : Type := mkDataCollectionStore {
  entityName : string;
  filter : option EntityFilter;
  sort : option string;
  limit : option Z;
  offset : option Z;
  others : gmap string jsval
}.

Definition with_filter (v : option EntityFilter) (dc : DataCollectionStore) :=
  {| entityName := entityName dc; filter := v; sort := sort dc;
     limit := limit dc; offset := offset dc; others := others dc |}.

Definition with_sort (v : option string) (dc : DataCollectionStore) :=
  {| entityName := entityName dc; filter := filter dc; sort := v;
     limit := limit dc; offset := offset dc; others := others dc |}.

Definition with_limit (v : option Z) (dc : DataCollectionStore) :=
  {| entityName := entityName dc; filter := filter dc; sort := sort dc;
     limit := v; offset := offset dc; others := others dc |}.

Definition with_offset (v : option Z) (dc : DataCollectionStore) :=
  {| entityName := entityName dc; filter := filter dc; sort := sort dc;
     limit := limit dc; offset := v; others := others dc |}.

(** What the helpers do to the store, in program order. *)
Inductive Event : Type :=
  | Assign (fieldName : string)
  | Call (method : string).

Record World : Type := mkWorld {
  store : DataCollectionStore;
  trace : list Event
}.

Inductive Outcome (A : Type) : Type :=
  | Returns (a : A) (w : World)
  | Throws (e : JSError) (w : World).
Arguments Returns {A} a w.
Arguments Throws {A} e w.

Definition final {A} (o : Outcome A) : World :=
  match o with
  | Returns _ w => w
  | Throws _ w => w
  end.

Definition M (A : Type) : Type := World -> Outcome A.

#[export] Instance M_ret : MRet M := fun A a w => Returns a w.
#[export] Instance M_bind : MBind M := fun A B f m w =>
  match m w with
  | Returns a w' => f a w'
  | Throws e w' => Throws e w'
  end.

(** A side-effect free computation inside [M]. *)
Definition lift {A} (r : result A) : M A := fun w =>
  match r with
  | Ok a => Returns a w
  | Err e => Throws e w
  end.

(** [dataCollection.<fieldName> = v] *)
Definition assign (fieldName : string)
    (update : DataCollectionStore -> DataCollectionStore) : M unit := fun w =>
  Returns tt {| store := update (store w); trace := trace w ++ [Assign fieldName] |}.

Definition assign_filter (v : option EntityFilter) : M unit := assign "filter" (with_filter v).
Definition assign_sort (v : option string) : M unit := assign "sort" (with_sort v).
Definition assign_limit (v : option Z) : M unit := assign "limit" (with_limit v).
Definition assign_offset (v : option Z) : M unit := assign "offset" (with_offset v).

(** [dataCollection.<method>()] for an external method whose effect on the
    store is [impl]. *)
Definition call (method : string)
    (impl : DataCollectionStore -> result unit * DataCollectionStore) : M unit := fun w =>
  let w' := {| store := snd (impl (store w)); trace := trace w ++ [Call method] |} in
  match fst (impl (store w)) with
  | Ok _ => Returns tt w'
  | Err e => Throws e w'
  end.

(** [list.forEach(callback)] where the callback updates a captured local
    variable of type [S] and may throw. *)
Fixpoint forEach {A S : Type} (callback : S -> A -> result S) (l : list A) (s : S) : result S :=
  match l with
  | [] => Ok s
  | x :: rest => s' ← callback s x; forEach callback rest s'
  end.

(** ** Column configuration (antd [ColumnProps]) *)

Record ColumnFilterItem : Type := mkColumnFilterItem {
  text : string;
  item_value : string
}.

(** The [div] rendered as the column title. *)
Record TitleElement : Type := mkTitleElement {
  div_style : list (string * string);
  div_title : string;
  div_children : string
}.

(** ** Imported functions *)

Class Externals : Type := {
  (** opaque types of React and antd *)
  ReactNode : Type;
  FilterDropdownProps : Type;
  OperatorChangeHandler : Type;
  ValueChangeHandler : Type;
  CustomFilterRef : Type;
  (** [JSON.parse] throws on malformed text; [JSON.stringify] is applied
      to object literals only and yields a string for them. *)
  JSON_parse : string -> result jsval;
  JSON_stringify : jsval -> string;
  (** util/metadata *)
  getPropertyInfoNN : string -> string -> option (list MetaClassInfo) -> result MetaPropertyInfo;
  getPropertyCaption : string -> string -> option (gmap string string) -> result string;
  (** mobx *)
  toJS : jsval -> jsval;
  (** ./DataTableCell, applied to its props [text], [propertyInfo], [mainStore] *)
  DataTableCell : jsval -> MetaPropertyInfo -> MainStore -> ReactNode;
  (** the synchronous effect of [DataCollectionStore.load] on the store *)
  load_method : DataCollectionStore -> result unit * DataCollectionStore
}.

Section Helpers.

Context `{Ext : Externals}.

(** The props of the [CustomFilter] element built by the filter dropdown. *)
Record CustomFilterElement : Type := mkCustomFilterElement {
  cf_entityName : string;
  cf_entityProperty : string;
  cf_filterProps : FilterDropdownProps;
  cf_operator : option string;
  cf_onOperatorChange : OperatorChangeHandler;
  cf_value : jsval;
  cf_onValueChange : ValueChangeHandler;
  cf_ref : option CustomFilterRef
}.

Record ColumnProps : Type := mkColumnProps {
  title : TitleElement;
  dataIndex : string;
  sorter : bool;
  key : string;
  filteredValue : jsval;
  render : jsval -> ReactNode;
  filters : option (list ColumnFilterItem);
  filterDropdown : option (FilterDropdownProps -> CustomFilterElement)
}.

Record ColumnWithCustomFilterConfig : Type := mkColumnWithCustomFilterConfig {
  cfg_propertyName : string;
  cfg_entityName : string;
  cfg_filters : option (gmap string jsval);
  cfg_operator : option string;
  cfg_onOperatorChange : OperatorChangeHandler;
  cfg_value : jsval;
  cfg_onValueChange : ValueChangeHandler;
  cfg_enableSorter : bool;
  cfg_mainStore : MainStore;
  cfg_customFilterRef : option CustomFilterRef
}.

(** [Array.prototype.find] *)
Definition array_find {A} (p : A -> bool) (l : list A) : option A := List.find p l.

Definition generateEnumFilter (propertyInfo : MetaPropertyInfo) (mainStore : MainStore)
    : result (list ColumnFilterItem) :=
  match enums mainStore with
  | None => Err TypeError
  | Some all =>
      let propertyEnumInfo :=
        array_find (fun enumInfo => String.eqb (en_name enumInfo) (mp_type propertyInfo)) all in
      match propertyEnumInfo with
      | None => Ok []
      | Some info =>
          Ok (map (fun enumValueInfo =>
                     {| text := ev_caption enumValueInfo;
                        item_value := ev_name enumValueInfo |})
                  (en_values info))
      end
  end.

Definition generateCustomFilterDropdown
    (propertyName entityName : string)
    (operator : option string)
    (onOperatorChange : OperatorChangeHandler)
    (value : jsval)
    (onValueChange : ValueChangeHandler)
    (customFilterRefCallback : option CustomFilterRef)
    : FilterDropdownProps -> CustomFilterElement :=
  fun props =>
    {| cf_entityName := entityName;
       cf_entityProperty := propertyName;
       cf_filterProps := props;
       cf_operator := operator;
       cf_onOperatorChange := onOperatorChange;
       cf_value := value;
       cf_onValueChange := onValueChange;
       cf_ref := customFilterRefCallback |}.

Definition renderCell (propertyInfo : MetaPropertyInfo) (text : jsval) (mainStore : MainStore)
    : ReactNode :=
  DataTableCell text propertyInfo mainStore.

Definition generateColumnWithCustomFilter (config : ColumnWithCustomFilterConfig)
    : result ColumnProps :=
  let propertyName := cfg_propertyName config in
  let entityName := cfg_entityName config in
  let filters := cfg_filters config in
  let mainStore := cfg_mainStore config in
  propertyInfo ← getPropertyInfoNN propertyName entityName (metadata mainStore);
  let dataIndex :=
    if String.eqb (attributeType propertyInfo) "COMPOSITION"
       || String.eqb (attributeType propertyInfo) "ASSOCIATION"
    then propertyName +:+ "._instanceName"
    else propertyName in
  localizedPropertyCaption ← getPropertyCaption propertyName entityName (messages mainStore);
  let filteredValue :=
    match filters with
    | Some fs =>
        match fs !! propertyName with
        | Some v => if js_truthy v then toJS v else JNull
        | None => JNull
        end
    | None => JNull
    end in
  let title :=
    {| div_style := [("whiteSpace", "nowrap"); ("maxWidth", "120px");
                     ("overflow", "hidden"); ("textOverflow", "clip")];
       div_title := localizedPropertyCaption;
       div_children := localizedPropertyCaption |} in
  if String.eqb (attributeType propertyInfo) "ENUM" then
    enumFilters ← generateEnumFilter propertyInfo mainStore;
    Ok {| title := title;
          dataIndex := dataIndex;
          sorter := cfg_enableSorter config;
          key := propertyName;
          filteredValue := filteredValue;
          render := fun text => renderCell propertyInfo text mainStore;
          filters := Some enumFilters;
          filterDropdown := None |}
  else
    Ok {| title := title;
          dataIndex := dataIndex;
          sorter := cfg_enableSorter config;
          key := propertyName;
          filteredValue := filteredValue;
          render := fun text => renderCell propertyInfo text mainStore;
          filters := None;
          filterDropdown :=
            Some (generateCustomFilterDropdown propertyName entityName
                    (cfg_operator config) (cfg_onOperatorChange config)
                    (cfg_value config) (cfg_onValueChange config)
                    (cfg_customFilterRef config)) |}.

(** ** Translation of the table state *)

Definition push (entityFilter : EntityFilter) (c : Condition) : EntityFilter :=
  {| conditions := conditions entityFilter ++ [Plain c] |}.

(** The callback of [fields.forEach] in [setFilters]; [entityFilter] is the
    local variable it updates. [tableFilters !! propertyName] is
    - [None] when the key is no own property,
    - [Some None] when the entry is [null] or [undefined],
    - [Some (Some a)] when the entry is the array [a]. *)
Definition setFilters_callback
    (tableFilters : gmap string (option (list string)))
    (mainStore : MainStore)
    (dataCollection : DataCollectionStore)
    (entityFilter : option EntityFilter)
    (propertyName : string) : result (option EntityFilter) :=
  match tableFilters !! propertyName with
  | Some (Some ((first :: _) as propertyFilters)) =>
      let entityFilter := default {| conditions := [] |} entityFilter in
      propertyInfo ← getPropertyInfoNN propertyName (entityName dataCollection)
                                       (metadata mainStore);
      if String.eqb (attributeType propertyInfo) "ENUM" then
        Ok (Some (push entityFilter
                    {| property := propertyName;
                       operator := JStr "in";
                       value := JArr (JStr <$> propertyFilters) |}))
      else
        parsed ← JSON_parse first;
        operator ← js_get parsed "operator";
        value ← js_get parsed "value";
        if js_strict_eq_str operator "inInterval" then
          minDate ← js_get value "minDate";
          maxDate ← js_get value "maxDate";
          Ok (Some (push (push entityFilter
                            {| property := propertyName;
                               operator := JStr ">=";
                               value := minDate |})
                      {| property := propertyName;
                         operator := JStr "<=";
                         value := maxDate |}))
        else
          Ok (Some (push entityFilter
                      {| property := propertyName;
                         operator := operator;
                         value := value |}))
  | _ => Ok entityFilter
  end.

Definition setFilters
    (tableFilters : option (gmap string (option (list string))))
    (fields : list string)
    (mainStore : MainStore) : M unit :=
  fun w =>
    let dataCollection := store w in
    (entityFilter ← lift
       match tableFilters with
       | Some tableFilters =>
           forEach (setFilters_callback tableFilters mainStore dataCollection) fields None
       | None => Ok None
       end;
     assign_filter entityFilter) w.

Definition setSorter (sorter : option SorterResult) (defaultSort : string) : M unit :=
  match sorter with
  | Some sorter =>
      match order sorter with
      | Some o =>
          let sortOrderPrefix := match o with descend => "-" | ascend => "+" end in
          let sortField :=
            if JSString.endsWith (field sorter) "._instanceName"
            then JSString.substring (field sorter) 0 (JSString.indexOf (field sorter) ".")
            else field sorter in
          assign_sort (Some (sortOrderPrefix +:+ sortField))
      | None => assign_sort (Some defaultSort)
      end
  | None => assign_sort (Some defaultSort)
  end.

Definition setPagination (pagination : option PaginationConfig) : M unit :=
  match pagination with
  | Some pagination =>
      match pageSize pagination, current pagination with
      | Some size, Some page =>
          if negb (size =? 0) && negb (page =? 0) then
            assign_limit (Some size) ;;
            assign_offset (Some (size * (page - 1)))
          else mret tt
      | _, _ => mret tt
      end
  | None => mret tt
  end.

Record TableChangeDTO : Type := mkTableChangeDTO {
  dto_pagination : option PaginationConfig;
  dto_filters : option (gmap string (option (list string)));
  dto_sorter : option SorterResult;
  dto_defaultSort : string;
  dto_fields : list string;
  dto_mainStore : MainStore
}.

Definition handleTableChange (tableChangeDTO : TableChangeDTO) : M unit :=
  setFilters (dto_filters tableChangeDTO) (dto_fields tableChangeDTO)
             (dto_mainStore tableChangeDTO) ;;
  setSorter (dto_sorter tableChangeDTO) (dto_defaultSort tableChangeDTO) ;;
  setPagination (dto_pagination tableChangeDTO) ;;
  call "load" load_method.

(** The object literal [{operator: ..., value: ...}] that is serialised. *)
Definition payload (condition : Condition) : jsval :=
  JObj [("operator", operator condition); ("value", value condition)].

Definition entityFilterToTableFilters_callback
    (tableFilters : gmap string (option (list string)))
    (condition : ConditionOrGroup) : result (gmap string (option (list string))) :=
  match condition with
  | Nested _ =>
      Err (Error "EntityFilter with ConditionsGroup cannot be converted to table filters")
  | Plain condition =>
      Ok (<[property condition := Some [JSON_stringify (payload condition)]]> tableFilters)
  end.

Definition entityFilterToTableFilters (entityFilter : EntityFilter)
    : result (gmap string (option (list string))) :=
  forEach entityFilterToTableFilters_callback (conditions entityFilter) ∅.

End Helpers.

(** ** A reference instance of the imported functions

    It serves to run the helpers on concrete inputs. [JSON] is implemented
    for the values of [jsval] (integers for numbers, one-byte characters). *)

Module Sample.

Definition dquote : string := String (Ascii.ascii_of_N 34) "".

Definition hex_digit (n : N) : Ascii.ascii :=
  Ascii.ascii_of_N (if (n <? 10)%N then 48 + n else 87 + n)%N.

(** QuoteJSONString *)
Fixpoint quote_chars (s : string) : string :=
  match s with
  | EmptyString => ""
  | String c rest =>
      let n := Ascii.N_of_ascii c in
      (if (n =? 34)%N then "\" +:+ dquote
       else if (n =? 92)%N then "\\"
       else if (n =? 8)%N then "\b"
       else if (n =? 9)%N then "\t"
       else if (n =? 10)%N then "\n"
       else if (n =? 12)%N then "\f"
       else if (n =? 13)%N then "\r"
       else if (n <? 32)%N then
         "\u00" +:+ String (hex_digit (n / 16)) (String (hex_digit (n mod 16)) "")
       else String c "") +:+ quote_chars rest
  end.

Definition quote (s : string) : string := dquote +:+ quote_chars s +:+ dquote.

(** SerializeJSONProperty: [undefined] is dropped from an object and
    becomes [null] in an array. (For [undefined] itself [JSON.stringify]
    yields no string; the helpers serialise object literals only.) *)
Fixpoint stringify (v : jsval) : string :=
  match v with
  | JUndefined => ""
  | JNull => "null"
  | JBool true => "true"
  | JBool false => "false"
  | JNum n => pretty n
  | JStr s => quote s
  | JArr elems =>
      "[" +:+
      (fix items (l : list jsval) : string :=
         match l with
         | [] => ""
         | x :: rest =>
             (match x with JUndefined => "null" | _ => stringify x end) +:+
             (match rest with [] => "" | _ => "," +:+ items rest end)
         end) elems +:+ "]"
  | JObj fields =>
      "{" +:+
      (fix members (first : bool) (l : list (string * jsval)) : string :=
         match l with
         | [] => ""
         | (k, x) :: rest =>
             match x with
             | JUndefined => members first rest
             | _ => (if first then "" else ",") +:+ quote k +:+ ":" +:+ stringify x
                    +:+ members false rest
             end
         end) true fields +:+ "}"
  end.

(** *** Parsing *)

Definition is_ws (c : Ascii.ascii) : bool :=
  let n := Ascii.N_of_ascii c in
  (n =? 32)%N || (n =? 9)%N || (n =? 10)%N || (n =? 13)%N.

Fixpoint skip_ws (s : string) : string :=
  match s with
  | String c rest => if is_ws c then skip_ws rest else s
  | EmptyString => s
  end.

Definition digit_of (c : Ascii.ascii) : option Z :=
  let n := Ascii.N_of_ascii c in
  if (48 <=? n)%N && (n <=? 57)%N then Some (Z.of_N (n - 48)) else None.

Definition hex_of (c : Ascii.ascii) : option N :=
  let n := Ascii.N_of_ascii c in
  if (48 <=? n)%N && (n <=? 57)%N then Some (n - 48)%N
  else if (97 <=? n)%N && (n <=? 102)%N then Some (n - 87)%N
  else if (65 <=? n)%N && (n <=? 70)%N then Some (n - 55)%N
  else None.

(** Digits after the first one. *)
Fixpoint parse_digits (acc : Z) (s : string) : Z * string :=
  match s with
  | String c rest =>
      match digit_of c with
      | Some d => parse_digits (10 * acc + d) rest
      | None => (acc, s)
      end
  | EmptyString => (acc, s)
  end.

(** An integer literal: no leading zero before another digit. *)
Definition parse_int (s : string) : option (Z * string) :=
  match s with
  | String c rest =>
      match digit_of c with
      | Some 0 =>
          match rest with
          | String c' _ => match digit_of c' with Some _ => None | None => Some (0, rest) end
          | EmptyString => Some (0, rest)
          end
      | Some d => Some (parse_digits d rest)
      | None => None
      end
  | EmptyString => None
  end.

Definition parse_number (s : string) : option (jsval * string) :=
  match s with
  | String "-"%char rest => '(n, s') ← parse_int rest; Some (JNum (- n), s')
  | _ => '(n, s') ← parse_int s; Some (JNum n, s')
  end.

(** The characters of a string literal, after the opening quote. *)
Fixpoint parse_chars (s : string) : option (string * string) :=
  match s with
  | EmptyString => None
  | String c rest =>
      let n := Ascii.N_of_ascii c in
      if (n =? 34)%N then Some ("", rest)
      else if (n <? 32)%N then None
      else if (n =? 92)%N then
        match rest with
        | String e rest' =>
            let unescaped (x : N) (tail : string) :=
              '(cs, s') ← parse_chars tail; Some (String (Ascii.ascii_of_N x) cs, s') in
            match e with
            | "b"%char => unescaped 8%N rest'
            | "t"%char => unescaped 9%N rest'
            | "n"%char => unescaped 10%N rest'
            | "f"%char => unescaped 12%N rest'
            | "r"%char => unescaped 13%N rest'
            | "/"%char => unescaped 47%N rest'
            | "\"%char => unescaped 92%N rest'
            | "u"%char =>
                match rest' with
                | String h1 (String h2 (String h3 (String h4 tail))) =>
                    a ← hex_of h1; b ← hex_of h2; c' ← hex_of h3; d ← hex_of h4;
                    if (a =? 0)%N && (b =? 0)%N then unescaped (16 * c' + d)%N tail
                    else None
                | _ => None
                end
            | _ => if (Ascii.N_of_ascii e =? 34)%N then unescaped 34%N rest' else None
            end
        | EmptyString => None
        end
      else '(cs, s') ← parse_chars rest; Some (String c cs, s')
  end.

Fixpoint strip_prefix (p s : string) : option string :=
  match p with
  | EmptyString => Some s
  | String a p' =>
      match s with
      | String b s' => if Ascii.eqb a b then strip_prefix p' s' else None
      | EmptyString => None
      end
  end.

Definition starts_with_code (n : N) (s : string) : option string :=
  match s with
  | String c rest => if (Ascii.N_of_ascii c =? n)%N then Some rest else None
  | EmptyString => None
  end.

(** Recursive descent; [fuel] bounds the nesting and the number of
    elements, [JSON_parse] supplies enough of it for the whole text. *)
Fixpoint parse_value (fuel : nat) (s : string) : option (jsval * string) :=
  match fuel with
  | O => None
  | S fuel =>
      let s := skip_ws s in
      match s with
      | EmptyString => None
      | String c rest =>
          if (Ascii.N_of_ascii c =? 34)%N then
            '(str, s') ← parse_chars rest; Some (JStr str, s')
          else match c with
          | "["%char =>
              match skip_ws rest with
              | String "]"%char s' => Some (JArr [], s')
              | _ => '(elems, s') ← parse_items fuel rest; Some (JArr elems, s')
              end
          | "{"%char =>
              match skip_ws rest with
              | String "}"%char s' => Some (JObj [], s')
              | _ => '(fields, s') ← parse_members fuel rest; Some (JObj fields, s')
              end
          | "n"%char => s' ← strip_prefix "null" s; Some (JNull, s')
          | "t"%char => s' ← strip_prefix "true" s; Some (JBool true, s')
          | "f"%char => s' ← strip_prefix "false" s; Some (JBool false, s')
          | _ => parse_number s
          end
      end
  end
with parse_items (fuel : nat) (s : string) : option (list jsval * string) :=
  match fuel with
  | O => None
  | S fuel =>
      '(v, s1) ← parse_value fuel s;
      match skip_ws s1 with
      | String ","%char s2 => '(vs, s3) ← parse_items fuel s2; Some (v :: vs, s3)
      | String "]"%char s2 => Some ([v], s2)
      | _ => None
      end
  end
with parse_members (fuel : nat) (s : string) : option (list (string * jsval) * string) :=
  match fuel with
  | O => None
  | S fuel =>
      s0 ← starts_with_code 34 (skip_ws s);
      '(k, s1) ← parse_chars s0;
      match skip_ws s1 with
      | String ":"%char s2 =>
          '(v, s3) ← parse_value fuel s2;
          match skip_ws s3 with
          | String ","%char s4 => '(kvs, s5) ← parse_members fuel s4; Some ((k, v) :: kvs, s5)
          | String "}"%char s4 => Some ([(k, v)], s4)
          | _ => None
          end
      | _ => None
      end
  end.

Definition parse (text : string) : result jsval :=
  match parse_value (2 * String.length text + 2) text with
  | Some (v, rest) =>
      match skip_ws rest with
      | EmptyString => Ok v
      | _ => Err SyntaxError
      end
  | None => Err SyntaxError
  end.

(** The lookup of a property in the entity metadata; it throws when the
    entity or the property is unknown. *)
Definition propertyInfoNN (propertyName entityName : string)
    (metadata : option (list MetaClassInfo)) : result MetaPropertyInfo :=
  match metadata with
  | None => Err TypeError
  | Some classes =>
      let found :=
        metaClass ← List.find (fun c => String.eqb (mc_entityName c) entityName) classes;
        List.find (fun p => String.eqb (mp_name p) propertyName) (mc_properties metaClass) in
      match found with
      | Some info => Ok info
      | None => Err (Error ("Cannot find MetaPropertyInfo for property " +:+ propertyName))
      end
  end.

Definition propertyCaption (propertyName entityName : string)
    (messages : option (gmap string string)) : result string :=
  match messages with
  | None => Err TypeError
  | Some msgs => Ok (default propertyName (msgs !! (entityName +:+ "." +:+ propertyName)))
  end.

Record CellProps : Type := mkCellProps {
  cell_text : jsval;
  cell_propertyInfo : MetaPropertyInfo;
  cell_mainStore : MainStore
}.

(** [load] marks the store as loading and requests the data. *)
Definition load (dc : DataCollectionStore) : result unit * DataCollectionStore :=
  (Ok tt,
   {| entityName := entityName dc; filter := filter dc; sort := sort dc;
      limit := limit dc; offset := offset dc;
      others := <["status" := JStr "LOADING"]> (others dc) |}).

#[export] Instance externals : Externals := {|
  ReactNode := CellProps;
  FilterDropdownProps := unit;
  OperatorChangeHandler := unit;
  ValueChangeHandler := unit;
  CustomFilterRef := unit;
  JSON_parse := parse;
  JSON_stringify := stringify;
  getPropertyInfoNN := propertyInfoNN;
  getPropertyCaption := propertyCaption;
  toJS := fun v => v;
  DataTableCell := mkCellProps;
  load_method := load
|}.

(** Sample data: an entity with a scalar, an enum and an association
    attribute. *)
Definition mainStore : MainStore :=
  {| metadata := Some [
       {| mc_entityName := "scr$Car";
          mc_properties := [
            {| mp_name := "model"; mp_type := "string"; attributeType := "DATATYPE" |};
            {| mp_name := "price"; mp_type := "decimal"; attributeType := "DATATYPE" |};
            {| mp_name := "carType"; mp_type := "com.company.scr.entity.CarType";
               attributeType := "ENUM" |};
            {| mp_name := "garage"; mp_type := "scr$Garage";
               attributeType := "ASSOCIATION" |} ] |} ];
     messages := Some {[ "scr$Car.model" := "Model" ]};
     enums := Some [
       {| en_name := "com.company.scr.entity.CarType";
          en_values := [ {| ev_name := "SEDAN"; ev_caption := "Sedan" |};
                         {| ev_name := "HATCHBACK"; ev_caption := "Hatchback" |} ] |} ] |}.

Definition cars : DataCollectionStore :=
  {| entityName := "scr$Car";
     filter := Some {| conditions := [Plain {| property := "model";
                                               operator := JStr "=";
                                               value := JStr "old" |}] |};
     sort := Some "+model";
     limit := Some 10;
     offset := Some 20;
     others := {[ "view" := JStr "car-view" ]} |}.

Definition world : World := {| store := cars; trace := [] |}.

End Sample.

(** * Notions used in the statements *)

(** The sorter of a column whose data index is [x + "._instanceName"]. *)
Definition instanceNameSorter (o : SortOrder) (x key : string) : SorterResult :=
  {| order := Some o; field := x +:+ "._instanceName"; columnKey := key |}.

(** The conditions held by the local variable [entityFilter]. *)
Definition pushed (entityFilter : option EntityFilter) : list ConditionOrGroup :=
  match entityFilter with
  | None => []
  | Some ef => conditions ef
  end.

(** [entityFilter] after the conditions [cs] were pushed onto it; it is
    created on the first push only. *)
Definition with_conditions (entityFilter : option EntityFilter)
    (cs : list ConditionOrGroup) : option EntityFilter :=
  match cs with
  | [] => entityFilter
  | _ => Some {| conditions := pushed entityFilter ++ cs |}
  end.

(** [propertyName] has a present, non-empty filter array in [tableFilters]. *)
Definition has_filter (tableFilters : gmap string (option (list string)))
    (propertyName : string) : bool :=
  match tableFilters !! propertyName with
  | Some (Some (_ :: _)) => true
  | _ => false
  end.

(** The conditions on property [p] among [cs]. *)
Definition conditions_on (p : string) (cs : list ConditionOrGroup) : list ConditionOrGroup :=
  List.filter (fun x => match x with
                        | Plain c => String.eqb (property c) p
                        | Nested _ => false
                        end) cs.

(** Every field of the store that is not named in [fs] has the same value
    in [dc] and [dc']. *)
Definition same_except (fs : list string) (dc dc' : DataCollectionStore) : Prop :=
  entityName dc' = entityName dc
  /\ others dc' = others dc
  /\ ("filter" ∉ fs -> filter dc' = filter dc)
  /\ ("sort" ∉ fs -> sort dc' = sort dc)
  /\ ("limit" ∉ fs -> limit dc' = limit dc)
  /\ ("offset" ∉ fs -> offset dc' = offset dc).

(** From [w] to [w'] nothing happened but assignments to the fields [fs] of
    the store: the log grew by such assignments only, and the other fields
    kept their values. *)
Definition writes_only (fs : list string) (w w' : World) : Prop :=
  same_except fs (store w) (store w')
  /\ exists events, trace w' = trace w ++ events
                    /\ Forall (fun e => exists f, e = Assign f /\ f ∈ fs) events.

(** The last condition on [p] in [cs]: the one whose entry survives, as
    each assignment to [tableFilters[p]] replaces the previous one. *)
Fixpoint last_with_property (p : string) (cs : list Condition) : option Condition :=
  match cs with
  | [] => None
  | c :: rest =>
      match last_with_property p rest with
      | Some c' => Some c'
      | None => if String.eqb (property c) p then Some c else None
      end
  end.

Definition groupError : JSError :=
  Error "EntityFilter with ConditionsGroup cannot be converted to table filters".

Section Notions.

Context `{Ext : Externals}.

(** handleTableChange runs setFilters, setSorter and setPagination in this
    order, each on the world the previous one left, all three return, and
    its outcome is that of the call of [load] on the world after them. *)
Definition runs_setters_then_load (dto : TableChangeDTO) (w : World) : Prop :=
  exists w1 w2 w3,
    setFilters (dto_filters dto) (dto_fields dto) (dto_mainStore dto) w = Returns tt w1
    /\ setSorter (dto_sorter dto) (dto_defaultSort dto) w1 = Returns tt w2
    /\ setPagination (dto_pagination dto) w2 = Returns tt w3
    /\ handleTableChange dto w = call "load" load_method w3.

(** The operations handleTableChange performed on the store, oldest first. *)
Definition performed (dto : TableChangeDTO) (w : World) : list Event :=
  drop (length (trace w)) (trace (final (handleTableChange dto w))).

(** The operator and value of [c] survive [JSON.stringify] followed by
    [JSON.parse] and the destructuring of the parsed object. *)
Definition round_trips (c : Condition) : Prop :=
  exists parsed,
    JSON_parse (JSON_stringify (payload c)) = Ok parsed
    /\ js_get parsed "operator" = Ok (operator c)
    /\ js_get parsed "value" = Ok (value c).

(** The property [p] of the entity of [dataCollection] is known to the
    metadata and its attribute type is not ENUM. *)
Definition non_enum_property (mainStore : MainStore) (dataCollection : DataCollectionStore)
    (p : string) : Prop :=
  exists info,
    getPropertyInfoNN p (entityName dataCollection) (metadata mainStore) = Ok info
    /\ attributeType info <> "ENUM".

(** The requirements of the round trip on one condition. *)
Definition convertible (mainStore : MainStore) (dataCollection : DataCollectionStore)
    (c : Condition) : Prop :=
  non_enum_property mainStore dataCollection (property c)
  /\ operator c <> JStr "inInterval"
  /\ round_trips c.

(** Converting the filter made of [cs] to table filters and setting these on
    the collection, with the properties of [cs] as fields, returns normally
    and stores a filter with the conditions [cs]. *)
Definition round_trip_holds (cs : list Condition) (mainStore : MainStore) (w : World) : Prop :=
  exists tableFilters w',
    entityFilterToTableFilters {| conditions := Plain <$> cs |} = Ok tableFilters
    /\ setFilters (Some tableFilters) (property <$> cs) mainStore w = Returns tt w'
    /\ filter (store w') = Some {| conditions := Plain <$> cs |}.

End Notions.

(** ** Notions used in the further properties *)

(** The sign setSorter puts before the sort field. *)
Definition orderPrefix (o : SortOrder) : string :=
  match o with
  | descend => "-"
  | ascend => "+"
  end.

(** The sorter antd reports for a click on a column with data index
    [dataIndex]. *)
Definition columnSorter (o : SortOrder) (dataIndex key : string) : SorterResult :=
  {| order := Some o; field := dataIndex; columnKey := key |}.

(** The conditions held after a pass of setFilters over [fields]: plain
    conditions on listed properties that have a filter, at most two for
    each field, and none exactly when the variable is still [undefined]. *)
Definition pass_shape (tableFilters : gmap string (option (list string)))
    (fields : list string) (r : option EntityFilter) : Prop :=
  (r = None <-> forall p, p ∈ fields -> has_filter tableFilters p = false)
  /\ (r = None <-> pushed r = [])
  /\ (length (pushed r) <= 2 * length fields)%nat
  /\ Forall (fun x => exists c, x = Plain c
                                /\ (property c ∈ fields
                                    /\ has_filter tableFilters (property c) = true))
            (pushed r).

Section MoreNotions.

Context `{Ext : Externals}.

(** The filter array of [p] starts with the serialised form of a comparison
    on a non-ENUM property: the first entry parses to an operator other
    than ["inInterval"] and a value, and [JSON.stringify] of these gives the
    entry back. *)
Definition canonical_entry (tableFilters : gmap string (option (list string)))
    (mainStore : MainStore) (dataCollection : DataCollectionStore) (p : string) : Prop :=
  exists first rest info parsed op v,
    tableFilters !! p = Some (Some (first :: rest))
    /\ getPropertyInfoNN p (entityName dataCollection) (metadata mainStore) = Ok info
    /\ attributeType info <> "ENUM"
    /\ JSON_parse first = Ok parsed
    /\ js_get parsed "operator" = Ok op
    /\ op <> JStr "inInterval"
    /\ js_get parsed "value" = Ok v
    /\ JSON_stringify (JObj [("operator", op); ("value", v)]) = first.

End MoreNotions.

(** ** Sample inputs *)

(** Table filters of the sample car table: a text filter on the model, two
    selected car types, a cleared price filter. *)
Definition sampleTableFilters : gmap string (option (list string)) :=
  {[ "model" := Some [Sample.stringify
                        (JObj [("operator", JStr "contains"); ("value", JStr "Golf")])];
     "carType" := Some ["SEDAN"; "HATCHBACK"];
     "price" := None ]}.

(** Table filters whose model entry holds a second string after the
    serialised filter. *)
Definition twoEntryTableFilters : gmap string (option (list string)) :=
  {[ "model" := Some [Sample.stringify
                        (JObj [("operator", JStr "contains"); ("value", JStr "Golf")]);
                      "ignored"] ]}.

(** Table filters with a date interval on the price column. *)
Definition intervalTableFilters : gmap string (option (list string)) :=
  {[ "price" := Some [Sample.stringify
                        (JObj [("operator", JStr "inInterval");
                               ("value", JObj [("minDate", JStr "2019-01-01");
                                               ("maxDate", JStr "2019-12-31")])])] ]}.

(** Table filters whose entry for the model column is not JSON; the car
    type and the price interval entries are well formed. *)
Definition malformedTableFilters : gmap string (option (list string)) :=
  {[ "model" := Some ["oops"];
     "carType" := Some ["SEDAN"];
     "price" := Some [Sample.stringify
                        (JObj [("operator", JStr "inInterval");
                               ("value", JObj [("minDate", JStr "2019-01-01");
                                               ("maxDate", JStr "2019-12-31")])])] ]}.

(** A change event whose filter on the model column holds text that is not
    JSON. *)
Definition malformedChange : TableChangeDTO :=
  {| dto_pagination := Some {| pageSize := Some 10; current := Some 2 |};
     dto_filters := Some {[ "model" := Some ["oops"] ]};
     dto_sorter := Some {| order := Some ascend; field := "model"; columnKey := "model" |};
     dto_defaultSort := "+model";
     dto_fields := ["model"; "price"];
     dto_mainStore := Sample.mainStore |}.

(** A well-formed change event: a text filter, a descending sort on the
    association column and the third page of twenty-five rows. *)
Definition sampleChange : TableChangeDTO :=
  {| dto_pagination := Some {| pageSize := Some 25; current := Some 3 |};
     dto_filters := Some sampleTableFilters;
     dto_sorter := Some (instanceNameSorter descend "garage" "garage");
     dto_defaultSort := "+model";
     dto_fields := ["model"; "carType"; "price"; "garage"];
     dto_mainStore := Sample.mainStore |}.

(** A price between two bounds, as setFilters writes an interval. *)
Definition priceBetween : list Condition :=
  [ {| property := "price"; operator := JStr ">="; value := JNum 1 |};
    {| property := "price"; operator := JStr "<="; value := JNum 5 |} ].

(** A filter whose second element is a group. *)
Definition groupedFilter : EntityFilter :=
  {| conditions :=
       [ Plain {| property := "model"; operator := JStr "contains"; value := JStr "Golf" |};
         Nested {| group := "OR";
                   group_conditions :=
                     [ {| property := "price"; operator := JStr "<"; value := JNum 5 |};
                       {| property := "price"; operator := JStr ">"; value := JNum 9 |} ] |} ] |}.

(** Two conditions of the sample car table. *)
Definition golfOver100 : list Condition :=
  [ {| property := "model"; operator := JStr "contains"; value := JStr "Golf" |};
    {| property := "price"; operator := JStr ">"; value := JNum 100 |} ].

(** The column configurations of the association and of the enum attribute
    of the sample car table. *)
Definition sampleConfig (propertyName : string)
    : ColumnWithCustomFilterConfig (Ext := Sample.externals) :=
  @mkColumnWithCustomFilterConfig Sample.externals
    propertyName                                (* propertyName *)
    "scr$Car"                                   (* entityName *)
    (Some {[ "carType" := JArr [JStr "SEDAN"] ]})  (* filters *)
    None                                        (* operator *)
    tt                                          (* onOperatorChange *)
    JUndefined                                  (* value *)
    tt                                          (* onValueChange *)
    true                                        (* enableSorter *)
    Sample.mainStore                            (* mainStore *)
    None.                                       (* customFilterRef *)

(** * Properties *)

(** ** String methods *)

Module JSStringFacts.
Import JSString.

Lemma substring_whole (s : string) : String.substring 0 (String.length s) s = s.
Proof. induction s as [|c s IH]; simpl; [done | by rewrite IH]. Qed.

Lemma substring_drop (x s : string) (m : nat) :
  String.substring (String.length x) m (x +:+ s) = String.substring 0 m s.
Proof. induction x as [|c x IH]; simpl; [done | apply IH]. Qed.

Lemma substring_take (x s : string) :
  String.substring 0 (String.length x) (x +:+ s) = x.
Proof.
  induction x as [|c x IH]; simpl.
  - by destruct s.
  - by rewrite IH.
Qed.

Lemma length_append (x s : string) :
  String.length (x +:+ s) = (String.length x + String.length s)%nat.
Proof. induction x as [|c x IH]; simpl; [done | by rewrite IH]. Qed.

Lemma endsWith_append (x suffix : string) : endsWith (x +:+ suffix) suffix = true.
Proof.
  unfold endsWith. rewrite length_append.
  replace (String.length x + String.length suffix - String.length suffix)%nat
    with (String.length x) by lia.
  rewrite substring_drop, substring_whole, String.eqb_refl.
  rewrite andb_true_r. apply Nat.leb_le. lia.
Qed.

(** A search that fails from one start index fails from every other. *)
Lemma indexOf_from_none (s search : string) (i j : Z) :
  0 <= i -> indexOf_from s search i = -1 -> indexOf_from s search j = -1.
Proof.
  revert i j. induction s as [|c s IH]; intros i j Hi; cbn [indexOf_from].
  - destruct (String.prefix search ""); [intros; lia | done].
  - destruct (String.prefix search (String c s)); [intros; lia |].
    apply IH. lia.
Qed.

Lemma prefix_dot (c : ascii) (s : string) :
  String.prefix "." (String c s) = bool_decide (c = "."%char).
Proof.
  change (String.prefix "." (String c s))
    with (if ascii_dec "." c then String.prefix "" s else false).
  destruct (ascii_dec "." c) as [<-|Hne].
  - rewrite bool_decide_eq_true_2 by done. by destruct s.
  - rewrite bool_decide_eq_false_2; [done | congruence].
Qed.

(** In [x + "." + rest], where [x] holds no dot, the first dot is the
    one that follows [x]. *)
Lemma indexOf_from_first_dot (x rest : string) (i : Z) :
  0 <= i ->
  indexOf_from x "." i = -1 ->
  indexOf_from (x +:+ String "." rest) "." i = i + Z.of_nat (String.length x).
Proof.
  revert i. induction x as [|c x IH]; intros i Hi Hnone.
  - change (indexOf_from ("" +:+ String "." rest) "." i)
      with (if String.prefix "." (String "." rest) then i
            else indexOf_from rest "." (i + 1)).
    rewrite prefix_dot, bool_decide_eq_true_2 by done. cbn [String.length]. lia.
  - change (indexOf_from (String c x) "." i)
      with (if String.prefix "." (String c x) then i
            else indexOf_from x "." (i + 1)) in Hnone.
    change (indexOf_from (String c x +:+ String "." rest) "." i)
      with (if String.prefix "." (String c (x +:+ String "." rest)) then i
            else indexOf_from (x +:+ String "." rest) "." (i + 1)).
    rewrite prefix_dot in Hnone. rewrite prefix_dot.
    case_bool_decide; [lia |].
    rewrite IH; [|lia|done].
    cbn [String.length]. lia.
Qed.

Lemma substring_prefix (x s : string) :
  substring (x +:+ s) 0 (Z.of_nat (String.length x)) = x.
Proof.
  unfold substring. rewrite length_append.
  rewrite Z.max_l, Z.min_l by lia.
  rewrite (Z.max_l (Z.of_nat _)), (Z.min_l (Z.of_nat _)) by lia.
  rewrite Z.min_l, Z.max_r by lia.
  rewrite Z.sub_0_r, Nat2Z.id. apply substring_take.
Qed.

End JSStringFacts.

(** ** setSorter *)

(** C1, as amended. For every sorter whose order is [descend] and whose
    field is [x + "._instanceName"] with no dot in [x], setSorter returns
    normally and sets [dataCollection.sort] to ["-" + x]; the cut is made at
    the first dot of the field. *)
Theorem setSorter_descend_instanceName (x key defaultSort : string) (w : World) :
  JSString.indexOf x "." = -1 ->
  setSorter (Some (instanceNameSorter descend x key)) defaultSort w
  = Returns tt {| store := with_sort (Some ("-" +:+ x)) (store w);
                  trace := trace w ++ [Assign "sort"] |}.
Proof.
  intros Hnodot. unfold setSorter, instanceNameSorter. cbn [order field].
  rewrite JSStringFacts.endsWith_append.
  unfold JSString.indexOf in *.
  change (x +:+ "._instanceName") with (x +:+ String "." "_instanceName").
  rewrite JSStringFacts.indexOf_from_first_dot by (done || lia).
  rewrite Z.add_0_l, JSStringFacts.substring_prefix. done.
Qed.

Lemma setSorter_descend_instanceName_witness :
  sort (store (final (setSorter (Some (instanceNameSorter descend "garage" "garage"))
                                "+model" Sample.world)))
  = Some "-garage".
Proof.
  rewrite (setSorter_descend_instanceName "garage" "garage" "+model" Sample.world).
  - reflexivity.
  - vm_compute. reflexivity.
Defined.

(** C1, as stated, fails when [x] itself holds a dot: for the field
    ["a.b._instanceName"] the sort string is ["-a"], not ["-a.b"]. *)
Lemma setSorter_descend_dotted_field :
  sort (store (final (setSorter (Some (instanceNameSorter descend "a.b" "a.b"))
                                "+model" Sample.world)))
  = Some "-a"
  /\ ~ (forall (x key defaultSort : string) (w : World),
          sort (store (final (setSorter (Some (instanceNameSorter descend x key))
                                        defaultSort w)))
          = Some ("-" +:+ x)).
Proof.
  split; [vm_compute; reflexivity |].
  intros H. specialize (H "a.b" "a.b" "+model" Sample.world).
  vm_compute in H. discriminate H.
Qed.

(** ** setPagination *)

(** C6. When [pageSize] and [current] are both present and non-zero,
    setPagination returns normally with [limit = pageSize] and
    [offset = pageSize * (current - 1)]; when the pagination object is
    absent, or either field is missing or zero, it returns normally and
    leaves the world, hence [limit] and [offset], as it was. *)
Theorem setPagination_limit_offset (pagination : option PaginationConfig) (w : World) :
  (forall p size page,
      pagination = Some p -> pageSize p = Some size -> current p = Some page ->
      size <> 0 -> page <> 0 ->
      exists w', setPagination pagination w = Returns tt w'
                 /\ limit (store w') = Some size
                 /\ offset (store w') = Some (size * (page - 1)))
  /\ ((pagination = None
       \/ exists p, pagination = Some p
                    /\ (pageSize p = None \/ pageSize p = Some 0
                        \/ current p = None \/ current p = Some 0)) ->
      setPagination pagination w = Returns tt w
      /\ limit (store (final (setPagination pagination w))) = limit (store w)
      /\ offset (store (final (setPagination pagination w))) = offset (store w)).
Proof.
  split.
  - intros p size page -> Hsize Hpage Hs Hp. unfold setPagination.
    rewrite Hsize, Hpage.
    rewrite (proj2 (Z.eqb_neq size 0)), (proj2 (Z.eqb_neq page 0)) by done.
    eexists. split; [reflexivity |]. done.
  - intros H.
    assert (setPagination pagination w = Returns tt w) as Hsame; [|by rewrite Hsame].
    unfold setPagination.
    destruct H as [-> | (p & -> & Hcase)]; [done |].
    destruct (pageSize p) as [size|], (current p) as [page|]; try done.
    destruct Hcase as [? | [[= ->] | [? | [= ->]]]]; try done.
    by rewrite andb_false_r.
Qed.

Lemma setPagination_limit_offset_witness :
  (exists w', setPagination (Some {| pageSize := Some 25; current := Some 3 |}) Sample.world
              = Returns tt w'
              /\ limit (store w') = Some 25 /\ offset (store w') = Some 50)
  /\ limit (store (final (setPagination (Some {| pageSize := Some 25; current := Some 0 |})
                                        Sample.world))) = Some 10.
Proof.
  split.
  - apply (proj1 (setPagination_limit_offset
                    (Some {| pageSize := Some 25; current := Some 3 |}) Sample.world)
                 {| pageSize := Some 25; current := Some 3 |} 25 3);
      (reflexivity || lia).
  - refine (eq_trans (proj1 (proj2 (proj2 (setPagination_limit_offset
                    (Some {| pageSize := Some 25; current := Some 0 |}) Sample.world) _))) _).
    + right. eexists. split; [reflexivity |]. right. right. right. reflexivity.
    + reflexivity.
Defined.

(** ** setFilters: what one pass over the fields pushes *)

Lemma pushed_with_conditions acc cs : pushed (with_conditions acc cs) = pushed acc ++ cs.
Proof. destruct cs; simpl; [by rewrite app_nil_r | done]. Qed.

Lemma with_conditions_app acc a b :
  with_conditions (with_conditions acc a) b = with_conditions acc (a ++ b).
Proof.
  destruct b as [|y b].
  - by rewrite app_nil_r.
  - cbn [with_conditions]. rewrite pushed_with_conditions.
    destruct a; simpl; by rewrite <- app_assoc.
Qed.

Lemma push_with_conditions acc c :
  Some (push (default {| conditions := [] |} acc) c) = with_conditions acc [Plain c].
Proof. by destruct acc. Qed.

Lemma forEach_app {A S} (f : S -> A -> result S) (l1 l2 : list A) (s : S) :
  forEach f (l1 ++ l2) s = s' ← forEach f l1 s; forEach f l2 s'.
Proof.
  revert s. induction l1 as [|x l1 IH]; intros s; simpl; [done |].
  destruct (f s x); simpl; [apply IH | done].
Qed.

Section SetFilters.

Context `{Ext : Externals}.
Variable tableFilters : gmap string (option (list string)).
Variable mainStore : MainStore.
Variable dataCollection : DataCollectionStore.

Abbreviation callback := (setFilters_callback tableFilters mainStore dataCollection).

(** The callback only appends to [entityFilter], and what it appends does
    not depend on what [entityFilter] holds. *)
Lemma callback_appends acc propertyName :
  callback acc propertyName
  = r ← callback None propertyName; Ok (with_conditions acc (pushed r)).
Proof.
  unfold setFilters_callback.
  destruct (tableFilters !! propertyName) as [[[|first rest]|]|]; try done.
  destruct (getPropertyInfoNN _ _ _) as [info|]; [|done]. cbn.
  destruct (String.eqb (attributeType info) "ENUM").
  { by rewrite push_with_conditions. }
  destruct (JSON_parse first) as [parsed|]; [|done]. cbn.
  destruct (js_get parsed "operator") as [op|]; [|done]. cbn.
  destruct (js_get parsed "value") as [v|]; [|done]. cbn.
  destruct (js_strict_eq_str op "inInterval").
  - destruct (js_get v "minDate") as [lo|]; [|done]. cbn.
    destruct (js_get v "maxDate") as [hi|]; [|done]. cbn.
    destruct acc; cbn; unfold push; cbn; by rewrite <- ?app_assoc.
  - by rewrite push_with_conditions.
Qed.

Lemma forEach_appends fields acc :
  forEach callback fields acc
  = r ← forEach callback fields None; Ok (with_conditions acc (pushed r)).
Proof.
  revert acc. induction fields as [|p fields IH]; intros acc.
  - by destruct acc.
  - cbn [forEach]. rewrite (callback_appends acc).
    destruct (callback None p) as [r1|]; [|done]. cbn.
    rewrite (IH (with_conditions acc (pushed r1))), (IH r1).
    destruct (forEach callback fields None) as [r2|]; [|done]. cbn.
    by rewrite pushed_with_conditions, with_conditions_app.
Qed.

(** A pass over [before ++ p :: after] pushes what [before] pushes, then
    what the callback pushes for [p], then what [after] pushes. *)
Lemma forEach_split before p after r1 cs r2 :
  forEach callback before None = Ok r1 ->
  (forall acc, callback acc p = Ok (with_conditions acc cs)) ->
  forEach callback after None = Ok r2 ->
  forEach callback (before ++ p :: after) None
  = Ok (with_conditions None (pushed r1 ++ cs ++ pushed r2)).
Proof.
  intros H1 Hp H2.
  assert (r1 = with_conditions None (pushed r1)) as Hr1.
  { pose proof (forEach_appends before None) as Hb.
    rewrite H1 in Hb. cbn in Hb. congruence. }
  rewrite forEach_app, H1.
  cbn [mbind result_bind forEach]. rewrite Hp.
  cbn [mbind result_bind]. rewrite forEach_appends, H2.
  cbn [mbind result_bind]. rewrite with_conditions_app.
  rewrite Hr1 at 1. by rewrite with_conditions_app.
Qed.

(** Every condition the callback pushes for [q] is a plain condition on
    [q]. *)
Lemma callback_pushes_own_property q r :
  callback None q = Ok r ->
  Forall (fun x => exists c, x = Plain c /\ property c = q) (pushed r).
Proof.
  unfold setFilters_callback.
  destruct (tableFilters !! q) as [[[|first rest]|]|];
    try (intros [= <-]; by constructor).
  destruct (getPropertyInfoNN _ _ _) as [info|]; [|done]. cbn [mbind result_bind].
  destruct (String.eqb (attributeType info) "ENUM").
  { intros [= <-]. repeat constructor. by eexists. }
  destruct (JSON_parse first) as [parsed|]; [|done]. cbn [mbind result_bind].
  destruct (js_get parsed "operator") as [op|]; [|done]. cbn [mbind result_bind].
  destruct (js_get parsed "value") as [v|]; [|done]. cbn [mbind result_bind].
  destruct (js_strict_eq_str op "inInterval").
  - destruct (js_get v "minDate") as [lo|]; [|done]. cbn [mbind result_bind].
    destruct (js_get v "maxDate") as [hi|]; [|done]. cbn [mbind result_bind].
    intros [= <-]. repeat constructor; by eexists.
  - intros [= <-]. repeat constructor. by eexists.
Qed.

(** Every condition a pass over [fields] pushes is a plain condition on one
    of the [fields]. *)
Lemma forEach_pushes_listed fields r :
  forEach callback fields None = Ok r ->
  Forall (fun x => exists c, x = Plain c /\ property c ∈ fields) (pushed r).
Proof.
  revert r. induction fields as [|q fields IH]; intros r.
  - intros [= <-]. constructor.
  - cbn [forEach].
    destruct (callback None q) as [r1|] eqn:Hq; [|done]. cbn [mbind result_bind].
    rewrite forEach_appends.
    destruct (forEach callback fields None) as [r2|]; [|done]. cbn [mbind result_bind].
    intros [= <-]. rewrite pushed_with_conditions. apply Forall_app. split.
    + eapply Forall_impl; [by apply callback_pushes_own_property |].
      intros x (c & -> & <-). exists c. split; [done | by left].
    + eapply Forall_impl; [by apply IH |].
      intros x (c & -> & Hc). exists c. split; [done | by right].
Qed.

End SetFilters.

Lemma conditions_on_other (p : string) (fields : list string) (cs : list ConditionOrGroup) :
  Forall (fun x => exists c, x = Plain c /\ property c ∈ fields) cs ->
  p ∉ fields ->
  conditions_on p cs = [].
Proof.
  intros Hall Hfresh. induction Hall as [|x cs (c & -> & Hc) _ IH]; [done |].
  cbn. rewrite (proj2 (String.eqb_neq _ _)); [exact IH |].
  intros Heq. rewrite Heq in Hc. contradiction.
Qed.

Section SetFiltersClaims.

Context `{Ext : Externals}.

(** setFilters runs the pass and then assigns [dataCollection.filter] once;
    when the pass throws nothing is assigned. *)
Lemma setFilters_outcome tableFilters fields mainStore w :
  setFilters (Some tableFilters) fields mainStore w
  = match forEach (setFilters_callback tableFilters mainStore (store w)) fields None with
    | Ok entityFilter =>
        Returns tt {| store := with_filter entityFilter (store w);
                      trace := trace w ++ [Assign "filter"] |}
    | Err e => Throws e w
    end.
Proof.
  unfold setFilters. cbn.
  by destruct (forEach _ fields None).
Qed.

Lemma callback_no_filter tableFilters mainStore dataCollection acc p :
  has_filter tableFilters p = false ->
  setFilters_callback tableFilters mainStore dataCollection acc p = Ok acc.
Proof.
  unfold has_filter, setFilters_callback.
  by destruct (tableFilters !! p) as [[[|??]|]|].
Qed.

Lemma forEach_no_filter tableFilters mainStore dataCollection fields acc :
  (forall p, p ∈ fields -> has_filter tableFilters p = false) ->
  forEach (setFilters_callback tableFilters mainStore dataCollection) fields acc = Ok acc.
Proof.
  induction fields as [|p fields IH]; intros Hnone; [done |].
  cbn [forEach]. rewrite callback_no_filter by (apply Hnone; left).
  apply IH. intros q Hq. apply Hnone. by right.
Qed.

(** C9. When [tableFilters] is absent, or no property listed in [fields]
    has a present, non-empty filter array in it, setFilters returns normally
    and sets [dataCollection.filter] to [undefined], whatever filter the
    collection held before. *)
Theorem setFilters_clears_filter
    (tableFilters : option (gmap string (option (list string))))
    (fields : list string) (mainStore : MainStore) (w : World) :
  (tableFilters = None
   \/ exists tf, tableFilters = Some tf
                 /\ forall p, p ∈ fields -> has_filter tf p = false) ->
  setFilters tableFilters fields mainStore w
  = Returns tt {| store := with_filter None (store w);
                  trace := trace w ++ [Assign "filter"] |}
  /\ filter (store (final (setFilters tableFilters fields mainStore w))) = None.
Proof.
  intros Hcase.
  assert (setFilters tableFilters fields mainStore w
          = Returns tt {| store := with_filter None (store w);
                          trace := trace w ++ [Assign "filter"] |}) as Hrun.
  { destruct Hcase as [-> | (tf & -> & Hnone)]; [done |].
    by rewrite setFilters_outcome, forEach_no_filter. }
  by rewrite Hrun.
Qed.

(** C4, as amended. Let [p] be a property whose declared attribute type is
    ENUM and whose entry in [tableFilters] is the non-empty array
    [selected]. The callback of setFilters, run for [p], pushes exactly one
    condition: [p in selected], the whole array being the value. Hence, for
    [p] listed in [fields] between [before] and [after], and provided these
    are processed without an exception, setFilters returns normally and
    assigns to [dataCollection.filter] the conditions pushed for [before],
    then that one condition, then the conditions pushed for [after]; when
    [p] is listed this once only, it is the one condition on [p]. *)
Theorem setFilters_enum_condition
    (tableFilters : gmap string (option (list string)))
    (mainStore : MainStore) (w : World)
    (p : string) (selected : list string) (info : MetaPropertyInfo) :
  tableFilters !! p = Some (Some selected) ->
  selected <> [] ->
  getPropertyInfoNN p (entityName (store w)) (metadata mainStore) = Ok info ->
  attributeType info = "ENUM" ->
  let c := {| property := p; operator := JStr "in"; value := JArr (JStr <$> selected) |} in
  (forall acc,
      setFilters_callback tableFilters mainStore (store w) acc p
      = Ok (Some (push (default {| conditions := [] |} acc) c)))
  /\ (forall before after r1 r2,
         forEach (setFilters_callback tableFilters mainStore (store w)) before None = Ok r1 ->
         forEach (setFilters_callback tableFilters mainStore (store w)) after None = Ok r2 ->
         exists w',
           setFilters (Some tableFilters) (before ++ p :: after) mainStore w = Returns tt w'
           /\ filter (store w')
              = Some {| conditions := pushed r1 ++ [Plain c] ++ pushed r2 |}
           /\ (p ∉ before -> p ∉ after ->
               conditions_on p (pushed (filter (store w'))) = [Plain c])).
Proof.
  intros Hentry Hnonempty Hinfo Henum c.
  assert (forall acc,
             setFilters_callback tableFilters mainStore (store w) acc p
             = Ok (Some (push (default {| conditions := [] |} acc) c))) as Hstep.
  { intros acc. unfold setFilters_callback. rewrite Hentry.
    destruct selected as [|first rest]; [done |].
    rewrite Hinfo. cbn [mbind result_bind]. by rewrite Henum. }
  split; [exact Hstep |].
  intros before after r1 r2 H1 H2.
  rewrite setFilters_outcome.
  rewrite (forEach_split _ _ _ before p after r1 [Plain c] r2 H1); [| |exact H2].
  - eexists. split; [reflexivity |].
    assert (with_conditions None (pushed r1 ++ [Plain c] ++ pushed r2)
            = Some {| conditions := pushed r1 ++ [Plain c] ++ pushed r2 |}) as Hfilter
      by by destruct (pushed r1).
    cbn [store filter with_filter]. rewrite Hfilter. split; [done |].
    intros Hbefore Hafter. cbn [pushed conditions]. unfold conditions_on.
    rewrite !List.filter_app. fold (conditions_on p (pushed r1)) (conditions_on p (pushed r2)).
    rewrite (conditions_on_other p before), (conditions_on_other p after)
      by eauto using forEach_pushes_listed.
    cbn. by rewrite String.eqb_refl.
  - intros acc. by rewrite Hstep, push_with_conditions.
Qed.

(** C10, as amended. Let [p] be a property of a non-ENUM attribute type
    whose first [tableFilters] entry parses to an object with operator
    ["inInterval"] and a value holding [minDate] and [maxDate]. The callback
    of setFilters, run for [p], pushes exactly two conditions, in this
    order: [p >= minDate], then [p <= maxDate]. Hence, for [p] listed in
    [fields] between [before] and [after], and provided these are processed
    without an exception, setFilters returns normally and assigns to
    [dataCollection.filter] the conditions pushed for [before], then those
    two, then the conditions pushed for [after]; when [p] is listed this
    once only, they are the two conditions on [p]. *)
Theorem setFilters_inInterval_conditions
    (tableFilters : gmap string (option (list string)))
    (mainStore : MainStore) (w : World)
    (p first : string) (rest : list string) (info : MetaPropertyInfo)
    (parsed : jsval) (interval : list (string * jsval)) (minDate maxDate : jsval) :
  tableFilters !! p = Some (Some (first :: rest)) ->
  getPropertyInfoNN p (entityName (store w)) (metadata mainStore) = Ok info ->
  attributeType info <> "ENUM" ->
  JSON_parse first = Ok parsed ->
  js_get parsed "operator" = Ok (JStr "inInterval") ->
  js_get parsed "value" = Ok (JObj interval) ->
  obj_lookup "minDate" interval = Some minDate ->
  obj_lookup "maxDate" interval = Some maxDate ->
  let lower := {| property := p; operator := JStr ">="; value := minDate |} in
  let upper := {| property := p; operator := JStr "<="; value := maxDate |} in
  (forall acc,
      setFilters_callback tableFilters mainStore (store w) acc p
      = Ok (Some (push (push (default {| conditions := [] |} acc) lower) upper)))
  /\ (forall before after r1 r2,
         forEach (setFilters_callback tableFilters mainStore (store w)) before None = Ok r1 ->
         forEach (setFilters_callback tableFilters mainStore (store w)) after None = Ok r2 ->
         exists w',
           setFilters (Some tableFilters) (before ++ p :: after) mainStore w = Returns tt w'
           /\ filter (store w')
              = Some {| conditions := pushed r1 ++ [Plain lower; Plain upper] ++ pushed r2 |}
           /\ (p ∉ before -> p ∉ after ->
               conditions_on p (pushed (filter (store w'))) = [Plain lower; Plain upper])).
Proof.
  intros Hentry Hinfo Hscalar Hparse Hop Hval Hmin Hmax lower upper.
  assert (forall acc,
             setFilters_callback tableFilters mainStore (store w) acc p
             = Ok (Some (push (push (default {| conditions := [] |} acc) lower) upper)))
    as Hstep.
  { intros acc. unfold setFilters_callback. rewrite Hentry, Hinfo.
    cbn [mbind result_bind].
    rewrite (proj2 (String.eqb_neq _ _) Hscalar), Hparse.
    cbn [mbind result_bind]. rewrite Hop.
    cbn [mbind result_bind]. rewrite Hval.
    cbn [mbind result_bind js_strict_eq_str js_get]. rewrite Hmin, Hmax.
    done. }
  split; [exact Hstep |].
  intros before after r1 r2 H1 H2.
  rewrite setFilters_outcome.
  rewrite (forEach_split _ _ _ before p after r1 [Plain lower; Plain upper] r2 H1);
    [| |exact H2].
  - eexists. split; [reflexivity |].
    assert (with_conditions None (pushed r1 ++ [Plain lower; Plain upper] ++ pushed r2)
            = Some {| conditions := pushed r1 ++ [Plain lower; Plain upper] ++ pushed r2 |})
      as Hfilter by by destruct (pushed r1).
    cbn [store filter with_filter]. rewrite Hfilter. split; [done |].
    intros Hbefore Hafter. cbn [pushed conditions]. unfold conditions_on.
    rewrite !List.filter_app. fold (conditions_on p (pushed r1)) (conditions_on p (pushed r2)).
    rewrite (conditions_on_other p before), (conditions_on_other p after)
      by eauto using forEach_pushes_listed.
    cbn. by rewrite String.eqb_refl.
  - intros acc. rewrite Hstep. destruct acc; cbn; unfold push; cbn; by rewrite <- ?app_assoc.
Qed.

End SetFiltersClaims.

Lemma setFilters_clears_filter_witness :
  filter (store Sample.world) <> None
  /\ filter (store (final (setFilters (Ext := Sample.externals)
                             (Some sampleTableFilters) ["price"; "garage"]
                             Sample.mainStore Sample.world))) = None.
Proof.
  split; [discriminate |].
  apply (setFilters_clears_filter (Ext := Sample.externals)).
  right. exists sampleTableFilters. split; [reflexivity |].
  intros p Hp. apply list_elem_of_In in Hp.
  destruct Hp as [<- | [<- | []]]; vm_compute; reflexivity.
Defined.

Lemma setFilters_enum_condition_witness :
  exists w',
    setFilters (Ext := Sample.externals) (Some sampleTableFilters)
               ["price"; "carType"; "garage"] Sample.mainStore Sample.world
    = Returns tt w'
    /\ filter (store w')
       = Some {| conditions :=
                   [Plain {| property := "carType"; operator := JStr "in";
                             value := JArr [JStr "SEDAN"; JStr "HATCHBACK"] |}] |}
    /\ conditions_on "carType" (pushed (filter (store w')))
       = [Plain {| property := "carType"; operator := JStr "in";
                   value := JArr [JStr "SEDAN"; JStr "HATCHBACK"] |}].
Proof.
  destruct (proj2 (setFilters_enum_condition (Ext := Sample.externals)
                     sampleTableFilters Sample.mainStore Sample.world
                     "carType" ["SEDAN"; "HATCHBACK"]
                     {| mp_name := "carType"; mp_type := "com.company.scr.entity.CarType";
                        attributeType := "ENUM" |}
                     ltac:(vm_compute; reflexivity) ltac:(discriminate)
                     ltac:(vm_compute; reflexivity) ltac:(reflexivity))
                  ["price"] ["garage"] None None
                  ltac:(vm_compute; reflexivity) ltac:(vm_compute; reflexivity))
    as (w' & Hrun & Hfilter & Hcount).
  exists w'. split; [exact Hrun |]. split; [exact Hfilter |].
  apply Hcount; (apply not_elem_of_cons; split; [discriminate | apply not_elem_of_nil]).
Defined.

Lemma setFilters_inInterval_conditions_witness :
  exists w',
    setFilters (Ext := Sample.externals) (Some intervalTableFilters)
               ["model"; "price"] Sample.mainStore Sample.world
    = Returns tt w'
    /\ filter (store w')
       = Some {| conditions :=
                   [Plain {| property := "price"; operator := JStr ">=";
                             value := JStr "2019-01-01" |};
                    Plain {| property := "price"; operator := JStr "<=";
                             value := JStr "2019-12-31" |}] |}
    /\ conditions_on "price" (pushed (filter (store w')))
       = [Plain {| property := "price"; operator := JStr ">=";
                   value := JStr "2019-01-01" |};
          Plain {| property := "price"; operator := JStr "<=";
                   value := JStr "2019-12-31" |}].
Proof.
  destruct (proj2 (setFilters_inInterval_conditions (Ext := Sample.externals)
                     intervalTableFilters Sample.mainStore Sample.world
                     "price" _ []
                     {| mp_name := "price"; mp_type := "decimal";
                        attributeType := "DATATYPE" |}
                     (JObj [("operator", JStr "inInterval");
                            ("value", JObj [("minDate", JStr "2019-01-01");
                                            ("maxDate", JStr "2019-12-31")])])
                     [("minDate", JStr "2019-01-01"); ("maxDate", JStr "2019-12-31")]
                     (JStr "2019-01-01") (JStr "2019-12-31")
                     ltac:(vm_compute; reflexivity) ltac:(vm_compute; reflexivity)
                     ltac:(discriminate) ltac:(vm_compute; reflexivity)
                     ltac:(reflexivity) ltac:(reflexivity)
                     ltac:(reflexivity) ltac:(reflexivity))
                  ["model"] [] None None
                  ltac:(vm_compute; reflexivity) ltac:(vm_compute; reflexivity))
    as (w' & Hrun & Hfilter & Hcount).
  exists w'. split; [exact Hrun |]. split; [exact Hfilter |].
  apply Hcount; [apply not_elem_of_cons; split; [discriminate |] |]; apply not_elem_of_nil.
Defined.

(** ** Frame of the three setters *)

Lemma writes_only_refl fs w : writes_only fs w w.
Proof.
  split; [by repeat split |].
  exists []. by rewrite app_nil_r.
Qed.

Lemma same_except_trans fs a b c :
  same_except fs a b -> same_except fs b c -> same_except fs a c.
Proof.
  intros (?&?&Hf1&Hs1&Hl1&Ho1) (?&?&Hf2&Hs2&Hl2&Ho2).
  repeat split; try congruence; intros Hnot.
  - by rewrite Hf2, Hf1.
  - by rewrite Hs2, Hs1.
  - by rewrite Hl2, Hl1.
  - by rewrite Ho2, Ho1.
Qed.

Lemma writes_only_trans fs w1 w2 w3 :
  writes_only fs w1 w2 -> writes_only fs w2 w3 -> writes_only fs w1 w3.
Proof.
  intros [Hs1 (e1 & Ht1 & Hf1)] [Hs2 (e2 & Ht2 & Hf2)].
  split; [by eapply same_except_trans |].
  exists (e1 ++ e2). split.
  - by rewrite Ht2, Ht1, app_assoc.
  - by apply Forall_app.
Qed.

Lemma assign_writes_only fs fieldName update w :
  fieldName ∈ fs ->
  same_except fs (store w) (update (store w)) ->
  writes_only fs w (final (assign fieldName update w)).
Proof.
  intros Hin Hsame. split; [exact Hsame |].
  exists [Assign fieldName]. split; [done |].
  apply Forall_singleton. by exists fieldName.
Qed.

Section Frame.

Context `{Ext : Externals}.

(** C7. For every input, the world after setFilters differs from the world
    before only in the field [filter] of the data collection, after
    setSorter only in [sort], after setPagination only in [limit] and
    [offset]: the operations performed on the store are assignments to
    these fields and nothing else, so [entityName] and every other field
    keep their values. This holds whether the setter returns or throws.
    The main store and the tableFilters, sorter and pagination arguments
    are values the setters only read; no operation on them exists in the
    code, and none is logged. *)
Theorem setters_write_only_their_fields
    (tableFilters : option (gmap string (option (list string))))
    (fields : list string) (mainStore : MainStore)
    (sorter : option SorterResult) (defaultSort : string)
    (pagination : option PaginationConfig) (w : World) :
  writes_only ["filter"] w (final (setFilters tableFilters fields mainStore w))
  /\ writes_only ["sort"] w (final (setSorter sorter defaultSort w))
  /\ writes_only ["limit"; "offset"] w (final (setPagination pagination w)).
Proof.
  split; [|split].
  - destruct tableFilters as [tf|].
    + rewrite setFilters_outcome.
      destruct (forEach _ fields None) as [ef|e]; [|apply writes_only_refl].
      apply (assign_writes_only _ "filter" (with_filter ef)); [set_solver |].
      repeat split; try done; set_solver.
    + apply (assign_writes_only _ "filter" (with_filter None)); [set_solver |].
      repeat split; try done; set_solver.
  - unfold setSorter.
    destruct sorter as [[[o|] f k]|]; cbn [order field];
      (apply (assign_writes_only _ "sort" (with_sort _)); [set_solver |]);
      repeat split; try done; set_solver.
  - unfold setPagination.
    destruct pagination as [[[size|] [page|]]|]; cbn [pageSize current];
      try apply writes_only_refl.
    destruct (negb (size =? 0) && negb (page =? 0)); [|apply writes_only_refl].
    apply (writes_only_trans _ w (final (assign_limit (Some size) w))).
    + apply (assign_writes_only _ "limit" (with_limit _)); [set_solver |].
      repeat split; try done; set_solver.
    + apply (assign_writes_only _ "offset" (with_offset _)
               (final (assign_limit (Some size) w))); [set_solver |].
      repeat split; try done; set_solver.
Qed.

End Frame.

(** ** handleTableChange *)

Lemma run_bind {A B} (m : M A) (f : A -> M B) (w : World) :
  (m ≫= f) w = match m w with
               | Returns a w' => f a w'
               | Throws e w' => Throws e w'
               end.
Proof. reflexivity. Qed.

Section HandleTableChange.

Context `{Ext : Externals}.

Lemma setSorter_returns sorter defaultSort w :
  exists v, setSorter sorter defaultSort w
            = Returns tt {| store := with_sort v (store w);
                            trace := trace w ++ [Assign "sort"] |}.
Proof.
  unfold setSorter. destruct sorter as [[[o|] f k]|]; cbn [order field]; by eexists.
Qed.

Lemma setPagination_returns pagination w :
  exists w', setPagination pagination w = Returns tt w'
             /\ exists events, trace w' = trace w ++ events
                               /\ (events = [] \/ events = [Assign "limit"; Assign "offset"]).
Proof.
  unfold setPagination.
  destruct pagination as [[[size|] [page|]]|]; cbn [pageSize current];
    try (exists w; split; [done |]; exists []; rewrite app_nil_r; by auto).
  destruct (negb (size =? 0) && negb (page =? 0)).
  - eexists. split; [reflexivity |].
    exists [Assign "limit"; Assign "offset"]. split; [|by auto].
    cbn. by rewrite <- app_assoc.
  - exists w; split; [done |]; exists []; rewrite app_nil_r; by auto.
Qed.

(** C8, as amended. For every TableChangeDTO on which setFilters returns
    normally, handleTableChange performs setFilters, then setSorter, then
    setPagination on the same data collection and then calls [load]: the
    operations it performs on the store are the assignment of [filter], the
    assignment of [sort], the assignments of [limit] and [offset] if the
    pagination asks for them, and one call of [load], the last operation;
    the store it leaves is the one [load] leaves when started on the store
    after the three setters. *)
Theorem handleTableChange_sequence (dto : TableChangeDTO) (w w1 : World) :
  setFilters (dto_filters dto) (dto_fields dto) (dto_mainStore dto) w = Returns tt w1 ->
  runs_setters_then_load dto w
  /\ (exists w2 w3,
         setSorter (dto_sorter dto) (dto_defaultSort dto) w1 = Returns tt w2
         /\ setPagination (dto_pagination dto) w2 = Returns tt w3
         /\ store (final (handleTableChange dto w)) = (load_method (store w3)).2)
  /\ (exists paging,
         (paging = [] \/ paging = [Assign "limit"; Assign "offset"])
         /\ performed dto w = Assign "filter" :: Assign "sort" :: paging ++ [Call "load"]).
Proof.
  intros Hfilters.
  destruct (setSorter_returns (dto_sorter dto) (dto_defaultSort dto) w1) as [v Hsorter].
  destruct (setPagination_returns (dto_pagination dto)
              {| store := with_sort v (store w1); trace := trace w1 ++ [Assign "sort"] |})
    as (w3 & Hpagination & paging & Htrace & Hpaging).
  assert (handleTableChange dto w = call "load" load_method w3) as Hrun.
  { unfold handleTableChange.
    rewrite run_bind, Hfilters, run_bind, Hsorter, run_bind, Hpagination. done. }
  assert (trace w1 = trace w ++ [Assign "filter"]) as Htrace1.
  { destruct (dto_filters dto) as [tf|].
    - rewrite setFilters_outcome in Hfilters.
      destruct (forEach _ _ None); by inversion Hfilters.
    - by inversion Hfilters. }
  split; [|split].
  - exists w1. eexists. exists w3. by repeat split.
  - eexists. exists w3. repeat split; [done | done |].
    rewrite Hrun. unfold call. by destruct (load_method (store w3)) as [[|] ?].
  - exists paging. split; [done |].
    unfold performed. rewrite Hrun.
    assert (trace (final (call "load" load_method w3)) = trace w3 ++ [Call "load"])
      as ->.
    { unfold call. by destruct (load_method (store w3)) as [[|] ?]. }
    rewrite Htrace. cbn [trace]. rewrite Htrace1.
    rewrite <- !app_assoc. by rewrite drop_app_length.
Qed.

End HandleTableChange.

Lemma handleTableChange_sequence_witness :
  runs_setters_then_load (Ext := Sample.externals) sampleChange Sample.world
  /\ performed (Ext := Sample.externals) sampleChange Sample.world
     = [Assign "filter"; Assign "sort"; Assign "limit"; Assign "offset"; Call "load"].
Proof.
  destruct (handleTableChange_sequence (Ext := Sample.externals) sampleChange Sample.world
              (final (setFilters (Ext := Sample.externals) (dto_filters sampleChange)
                        (dto_fields sampleChange) (dto_mainStore sampleChange)
                        Sample.world)))
    as (Hruns & _ & _).
  - vm_compute. reflexivity.
  - split; [exact Hruns |]. vm_compute. reflexivity.
Defined.

(** C8, as stated for every TableChangeDTO, fails: on [malformedChange]
    setFilters throws the SyntaxError of [JSON.parse], so handleTableChange
    throws it too, with the store untouched, setSorter and setPagination not
    run and [load] not called. *)
Lemma handleTableChange_throw_skips_load :
  handleTableChange (Ext := Sample.externals) malformedChange Sample.world
  = Throws SyntaxError Sample.world
  /\ performed (Ext := Sample.externals) malformedChange Sample.world = []
  /\ ~ runs_setters_then_load (Ext := Sample.externals) malformedChange Sample.world.
Proof.
  split; [vm_compute; reflexivity |].
  split; [vm_compute; reflexivity |].
  intros (w1 & w2 & w3 & Hfilters & _).
  vm_compute in Hfilters. discriminate Hfilters.
Qed.

(** ** entityFilterToTableFilters *)

Lemma plain_or_nested (l : list ConditionOrGroup) :
  (exists cs, l = Plain <$> cs) \/ (exists g, Nested g ∈ l).
Proof.
  induction l as [|[c|g] l IH].
  - left. by exists [].
  - destruct IH as [[cs ->] | [g Hg]].
    + left. by exists (c :: cs).
    + right. exists g. by right.
  - right. exists g. by left.
Qed.

Lemma last_with_property_fresh (cs : list Condition) (p : string) :
  p ∉ property <$> cs -> last_with_property p cs = None.
Proof.
  induction cs as [|c cs IH]; [done |].
  rewrite fmap_cons, not_elem_of_cons. intros [Hne Hfresh].
  cbn [last_with_property]. rewrite IH by done.
  rewrite (proj2 (String.eqb_neq _ _)); [done | congruence].
Qed.

Lemma last_with_property_NoDup (cs : list Condition) (c : Condition) :
  NoDup (property <$> cs) -> c ∈ cs -> last_with_property (property c) cs = Some c.
Proof.
  induction cs as [|c0 cs IH]; intros Hnodup Hin; [by apply elem_of_nil in Hin |].
  apply NoDup_cons in Hnodup as [Hfresh Hnodup]. cbn [last_with_property].
  apply elem_of_cons in Hin as [-> | Hin].
  - by rewrite last_with_property_fresh, String.eqb_refl.
  - by rewrite IH.
Qed.

Section EntityFilterToTableFilters.

Context `{Ext : Externals}.

Lemma forEach_nested (l : list ConditionOrGroup) (g : ConditionsGroup) tableFilters :
  Nested g ∈ l ->
  forEach entityFilterToTableFilters_callback l tableFilters = Err groupError.
Proof.
  revert tableFilters. induction l as [|x l IH]; intros tf Hin.
  - by apply elem_of_nil in Hin.
  - cbn [forEach]. destruct x as [c|g']; [|done].
    apply elem_of_cons in Hin as [[=] | Hin]. by apply IH.
Qed.

Lemma forEach_plain (cs : list Condition) tableFilters :
  exists result,
    forEach entityFilterToTableFilters_callback (Plain <$> cs) tableFilters = Ok result
    /\ forall p,
         result !! p
         = match last_with_property p cs with
           | Some c => Some (Some [JSON_stringify (payload c)])
           | None => tableFilters !! p
           end.
Proof.
  revert tableFilters. induction cs as [|c cs IH]; intros tf.
  - by exists tf.
  - destruct (IH (<[property c := Some [JSON_stringify (payload c)]]> tf))
      as (result & Hrun & Hlookup).
    exists result. split; [exact Hrun |].
    intros p. rewrite Hlookup. cbn [last_with_property].
    destruct (last_with_property p cs); [done |].
    destruct (String.eqb_spec (property c) p) as [<- | Hne].
    + by rewrite lookup_insert_eq.
    + by rewrite lookup_insert_ne.
Qed.

(** C3, as amended. entityFilterToTableFilters throws if and only if some
    element of the conditions is a nested conditions group. For every
    EntityFilter of plain Conditions it returns normally, and the result maps
    each property to the one-element array holding the JSON string of the
    operator and value of the last condition on that property (and has no
    entry for a property without condition). *)
Theorem entityFilterToTableFilters_throws_iff_nested (entityFilter : EntityFilter) :
  ((exists e, entityFilterToTableFilters entityFilter = Err e)
   <-> (exists g, Nested g ∈ conditions entityFilter))
  /\ (forall cs,
         conditions entityFilter = Plain <$> cs ->
         exists tableFilters,
           entityFilterToTableFilters entityFilter = Ok tableFilters
           /\ forall p,
                tableFilters !! p
                = (fun c => Some [JSON_stringify (payload c)]) <$> last_with_property p cs).
Proof.
  unfold entityFilterToTableFilters. split; [split |].
  - intros [e Hthrow].
    destruct (plain_or_nested (conditions entityFilter)) as [[cs Hcs] | Hnested]; [|done].
    rewrite Hcs in Hthrow.
    destruct (forEach_plain cs ∅) as (result & Hrun & _). congruence.
  - intros [g Hg]. exists groupError. by eapply forEach_nested.
  - intros cs ->.
    destruct (forEach_plain cs ∅) as (result & Hrun & Hlookup).
    exists result. split; [exact Hrun |].
    intros p. rewrite Hlookup. by destruct (last_with_property p cs).
Qed.

End EntityFilterToTableFilters.

Lemma entityFilterToTableFilters_throws_iff_nested_witness :
  exists tableFilters,
    entityFilterToTableFilters (Ext := Sample.externals)
      {| conditions := Plain <$> priceBetween |} = Ok tableFilters
    /\ tableFilters !! "price"
       = Some (Some [Sample.stringify (JObj [("operator", JStr "<="); ("value", JNum 5)])]).
Proof.
  destruct (proj2 (entityFilterToTableFilters_throws_iff_nested (Ext := Sample.externals)
                     {| conditions := Plain <$> priceBetween |})
                  priceBetween eq_refl) as (tableFilters & Hrun & Hlookup).
  exists tableFilters. split; [exact Hrun |].
  rewrite Hlookup. reflexivity.
Defined.

(** C3, as stated, fails for two conditions on one property: the entry of
    the property holds the operator and value of the second condition, not
    those of the first. *)
Lemma entityFilterToTableFilters_duplicate_property :
  ~ (forall cs : list Condition,
        exists tableFilters,
          entityFilterToTableFilters (Ext := Sample.externals)
            {| conditions := Plain <$> cs |} = Ok tableFilters
          /\ forall c, c ∈ cs ->
               tableFilters !! property c
               = Some (Some [JSON_stringify (Externals := Sample.externals) (payload c)])).
Proof.
  intros Hclaim.
  destruct (Hclaim priceBetween) as (tableFilters & Hrun & Hall).
  specialize (Hall {| property := "price"; operator := JStr ">="; value := JNum 1 |}).
  injection Hrun as <-.
  assert ({| property := "price"; operator := JStr ">="; value := JNum 1 |} ∈ priceBetween)
    as Hin by left.
  apply Hall in Hin. vm_compute in Hin. discriminate Hin.
Qed.

(** ** Round trip through the table filters *)

Lemma js_strict_eq_str_false (v : jsval) (s : string) :
  v <> JStr s -> js_strict_eq_str v s = false.
Proof.
  intros Hne. destruct v as [| | | |t| |]; try done.
  cbn. apply String.eqb_neq. congruence.
Qed.

Lemma condition_eta (c : Condition) :
  {| property := property c; operator := operator c; value := value c |} = c.
Proof. by destruct c. Qed.

Section RoundTrip.

Context `{Ext : Externals}.

Lemma callback_round_trip tableFilters mainStore dataCollection c acc :
  tableFilters !! property c = Some (Some [JSON_stringify (payload c)]) ->
  convertible mainStore dataCollection c ->
  setFilters_callback tableFilters mainStore dataCollection acc (property c)
  = Ok (with_conditions acc [Plain c]).
Proof.
  intros Hentry ((info & Hinfo & Hscalar) & Hop & parsed & Hparse & Hgetop & Hgetval).
  unfold setFilters_callback. rewrite Hentry, Hinfo.
  cbn [mbind result_bind].
  rewrite (proj2 (String.eqb_neq _ _) Hscalar), Hparse.
  cbn [mbind result_bind]. rewrite Hgetop.
  cbn [mbind result_bind]. rewrite Hgetval.
  cbn [mbind result_bind]. rewrite js_strict_eq_str_false by done.
  by rewrite condition_eta, push_with_conditions.
Qed.

Lemma forEach_round_trip tableFilters mainStore dataCollection cs acc :
  (forall c, c ∈ cs ->
     tableFilters !! property c = Some (Some [JSON_stringify (payload c)])
     /\ convertible mainStore dataCollection c) ->
  forEach (setFilters_callback tableFilters mainStore dataCollection) (property <$> cs) acc
  = Ok (with_conditions acc (Plain <$> cs)).
Proof.
  revert acc. induction cs as [|c cs IH]; intros acc Hall; [done |].
  rewrite fmap_cons. cbn [forEach].
  destruct (Hall c) as [Hentry Hconv]; [by left |].
  rewrite callback_round_trip by done. cbn [mbind result_bind].
  rewrite IH by (intros c' Hc'; apply Hall; by right).
  by rewrite with_conditions_app.
Qed.

(** C2, as amended. For every EntityFilter whose conditions are a non-empty
    list of plain Conditions over pairwise-distinct properties, each of
    non-ENUM attribute type, with operator other than ["inInterval"] and an
    operator and value that survive the JSON round trip, calling setFilters
    on the result of entityFilterToTableFilters, with fields listing exactly
    those properties in the same order, sets [dataCollection.filter] to an
    EntityFilter with the original conditions in the original order. *)
Theorem setFilters_entityFilterToTableFilters_round_trip
    (cs : list Condition) (mainStore : MainStore) (w : World) :
  cs <> [] ->
  NoDup (property <$> cs) ->
  (forall c, c ∈ cs -> convertible mainStore (store w) c) ->
  round_trip_holds cs mainStore w.
Proof.
  intros Hnonempty Hnodup Hconv.
  destruct (forEach_plain cs ∅) as (tableFilters & Hrun & Hlookup).
  exists tableFilters. eexists. split; [exact Hrun |].
  rewrite setFilters_outcome, forEach_round_trip.
  - split; [reflexivity |]. cbn.
    destruct cs as [|c cs]; [done |]. done.
  - intros c Hc. split; [|by apply Hconv].
    by rewrite Hlookup, last_with_property_NoDup.
Qed.

End RoundTrip.

Lemma setFilters_entityFilterToTableFilters_round_trip_witness :
  round_trip_holds (Ext := Sample.externals) golfOver100 Sample.mainStore Sample.world.
Proof.
  apply (setFilters_entityFilterToTableFilters_round_trip (Ext := Sample.externals)).
  - discriminate.
  - apply (bool_decide_unpack _). vm_compute. exact I.
  - intros c Hc. apply list_elem_of_In in Hc.
    destruct Hc as [<- | [<- | []]].
    + split; [|split].
      * eexists. split; [vm_compute; reflexivity | discriminate].
      * discriminate.
      * eexists. split; [vm_compute; reflexivity |]. split; reflexivity.
    + split; [|split].
      * eexists. split; [vm_compute; reflexivity | discriminate].
      * discriminate.
      * eexists. split; [vm_compute; reflexivity |]. split; reflexivity.
Defined.

(** C2, as stated, fails for the filter without conditions, which meets
    every requirement of the claim: its table filters are the empty object,
    and setFilters then sets [dataCollection.filter] to [undefined], which
    is no EntityFilter. *)
Lemma round_trip_of_empty_filter :
  NoDup (property <$> ([] : list Condition))
  /\ (forall c, c ∈ ([] : list Condition) ->
        convertible (Ext := Sample.externals) Sample.mainStore (store Sample.world) c)
  /\ (exists tableFilters,
         entityFilterToTableFilters (Ext := Sample.externals) {| conditions := [] |}
         = Ok tableFilters
         /\ filter (store (final (setFilters (Ext := Sample.externals) (Some tableFilters) []
                                             Sample.mainStore Sample.world))) = None)
  /\ ~ round_trip_holds (Ext := Sample.externals) [] Sample.mainStore Sample.world.
Proof.
  split; [constructor |].
  split; [intros c Hc; by apply elem_of_nil in Hc |].
  split; [exists ∅; split; reflexivity |].
  intros (tableFilters & w' & Hrun & Hset & Hfilter).
  injection Hrun as <-.
  injection Hset as <-. discriminate Hfilter.
Qed.

(** ** generateColumnWithCustomFilter *)

Section GenerateColumn.

Context `{Ext : Externals}.

(** With the enums loaded, generateEnumFilter lists the values of the enum
    named by the property type, caption and name of each, and nothing when
    there is no such enum. *)
Lemma generateEnumFilter_items propertyInfo mainStore all :
  enums mainStore = Some all ->
  generateEnumFilter propertyInfo mainStore
  = Ok match List.find (fun e => String.eqb (en_name e) (mp_type propertyInfo)) all with
       | Some e => (fun v => {| text := ev_caption v; item_value := ev_name v |}) <$> en_values e
       | None => []
       end.
Proof.
  intros Henums. unfold generateEnumFilter, array_find. rewrite Henums.
  by destruct (List.find _ all).
Qed.

(** C5. Let the metadata know the property, with attribute type [a], and
    the messages its caption (and, for an ENUM, let the enums be loaded).
    Then generateColumnWithCustomFilter returns a column such that
    - its [dataIndex] is [propertyName + "._instanceName"] when [a] is
      COMPOSITION or ASSOCIATION, and [propertyName] otherwise;
    - when [a] is ENUM it carries the [filters] list that generateEnumFilter
      produces, and no [filterDropdown];
    - for every other [a] it carries no [filters] list but the custom
      [filterDropdown] built by generateCustomFilterDropdown. *)
Theorem generateColumnWithCustomFilter_branches
    (config : ColumnWithCustomFilterConfig) (info : MetaPropertyInfo) (caption : string) :
  getPropertyInfoNN (cfg_propertyName config) (cfg_entityName config)
                    (metadata (cfg_mainStore config)) = Ok info ->
  getPropertyCaption (cfg_propertyName config) (cfg_entityName config)
                     (messages (cfg_mainStore config)) = Ok caption ->
  (attributeType info = "ENUM" -> is_Some (enums (cfg_mainStore config))) ->
  exists column,
    generateColumnWithCustomFilter config = Ok column
    /\ (attributeType info = "COMPOSITION" \/ attributeType info = "ASSOCIATION" ->
        dataIndex column = cfg_propertyName config +:+ "._instanceName")
    /\ (attributeType info <> "COMPOSITION" -> attributeType info <> "ASSOCIATION" ->
        dataIndex column = cfg_propertyName config)
    /\ (attributeType info = "ENUM" ->
        exists items,
          generateEnumFilter info (cfg_mainStore config) = Ok items
          /\ filters column = Some items
          /\ filterDropdown column = None)
    /\ (attributeType info <> "ENUM" ->
        filters column = None
        /\ filterDropdown column
           = Some (generateCustomFilterDropdown
                     (cfg_propertyName config) (cfg_entityName config)
                     (cfg_operator config) (cfg_onOperatorChange config)
                     (cfg_value config) (cfg_onValueChange config)
                     (cfg_customFilterRef config))).
Proof.
  intros Hinfo Hcaption Henums.
  unfold generateColumnWithCustomFilter. rewrite Hinfo.
  cbn [mbind result_bind]. rewrite Hcaption. cbn [mbind result_bind].
  assert (forall col : ColumnProps,
             dataIndex col
             = (if String.eqb (attributeType info) "COMPOSITION"
                   || String.eqb (attributeType info) "ASSOCIATION"
                then cfg_propertyName config +:+ "._instanceName"
                else cfg_propertyName config) ->
             (attributeType info = "COMPOSITION" \/ attributeType info = "ASSOCIATION" ->
              dataIndex col = cfg_propertyName config +:+ "._instanceName")
             /\ (attributeType info <> "COMPOSITION" -> attributeType info <> "ASSOCIATION" ->
                 dataIndex col = cfg_propertyName config)) as Hindex.
  { intros col ->. split.
    - intros [-> | ->]; reflexivity.
    - intros H1 H2.
      by rewrite (proj2 (String.eqb_neq _ _) H1), (proj2 (String.eqb_neq _ _) H2). }
  destruct (String.eqb_spec (attributeType info) "ENUM") as [Henum | Hother].
  - destruct (Henums Henum) as [all Hall].
    rewrite (generateEnumFilter_items _ _ all Hall). cbn [mbind result_bind].
    eexists. split; [reflexivity |].
    match goal with
    | |- (_ -> dataIndex ?col = _) /\ _ => destruct (Hindex col eq_refl) as [Hi1 Hi2]
    end.
    split; [exact Hi1 |]. split; [exact Hi2 |]. split; [|done].
    intros _. eexists. by repeat split.
  - eexists. split; [reflexivity |].
    match goal with
    | |- (_ -> dataIndex ?col = _) /\ _ => destruct (Hindex col eq_refl) as [Hi1 Hi2]
    end.
    split; [exact Hi1 |]. split; [exact Hi2 |]. split; [done |].
    intros _. by split.
Qed.

End GenerateColumn.

Lemma generateColumnWithCustomFilter_branches_witness :
  (exists column,
      generateColumnWithCustomFilter (sampleConfig "garage") = Ok column
      /\ dataIndex column = "garage._instanceName"
      /\ filters column = None)
  /\ (exists column,
         generateColumnWithCustomFilter (sampleConfig "carType") = Ok column
         /\ dataIndex column = "carType"
         /\ filters column = Some [ {| text := "Sedan"; item_value := "SEDAN" |};
                                    {| text := "Hatchback"; item_value := "HATCHBACK" |} ]
         /\ filterDropdown column = None).
Proof.
  split.
  - destruct (generateColumnWithCustomFilter_branches (Ext := Sample.externals)
                (sampleConfig "garage")
                {| mp_name := "garage"; mp_type := "scr$Garage";
                   attributeType := "ASSOCIATION" |}
                "garage")
      as (column & Hrun & Hassoc & _ & _ & Hother);
      [vm_compute; reflexivity | vm_compute; reflexivity | discriminate |].
    exists column. split; [exact Hrun |]. split.
    + apply Hassoc. by right.
    + apply Hother. discriminate.
  - destruct (generateColumnWithCustomFilter_branches (Ext := Sample.externals)
                (sampleConfig "carType")
                {| mp_name := "carType"; mp_type := "com.company.scr.entity.CarType";
                   attributeType := "ENUM" |}
                "carType")
      as (column & Hrun & _ & Hplain & Henum & _);
      [vm_compute; reflexivity | vm_compute; reflexivity | by eexists |].
    exists column. split; [exact Hrun |]. split.
    + apply Hplain; discriminate.
    + destruct (Henum eq_refl) as (items & Hitems & Hfilters & Hdropdown).
      split; [|exact Hdropdown].
      rewrite Hfilters. f_equal.
      vm_compute in Hitems. by injection Hitems as <-.
Defined.

(** ** A pass cut short by an exception, and a field listed twice *)

(** C4, as stated, fails. [carType] is an ENUM property with a non-empty
    filter array. Listed after a field whose filter is malformed, it is
    never reached: setFilters throws and the collection keeps its old
    filter, which holds no condition on [carType]. Listed twice, it gets two
    conditions. *)
Lemma setFilters_enum_condition_count :
  (malformedTableFilters !! "carType" = Some (Some ["SEDAN"])
   /\ attributeType <$> getPropertyInfoNN (Externals := Sample.externals) "carType"
                          (entityName (store Sample.world)) (metadata Sample.mainStore)
      = Ok "ENUM")
  /\ setFilters (Ext := Sample.externals) (Some malformedTableFilters) ["model"; "carType"]
                Sample.mainStore Sample.world
     = Throws SyntaxError Sample.world
  /\ conditions_on "carType"
       (pushed (filter (store (final
          (setFilters (Ext := Sample.externals) (Some malformedTableFilters)
                      ["model"; "carType"] Sample.mainStore Sample.world)))))
     = []
  /\ conditions_on "carType"
       (pushed (filter (store (final
          (setFilters (Ext := Sample.externals) (Some malformedTableFilters)
                      ["carType"; "carType"] Sample.mainStore Sample.world)))))
     = [ Plain {| property := "carType"; operator := JStr "in";
                  value := JArr [JStr "SEDAN"] |};
         Plain {| property := "carType"; operator := JStr "in";
                  value := JArr [JStr "SEDAN"] |} ].
Proof. repeat split; vm_compute; reflexivity. Qed.

(** C10, as stated, fails in the same two ways. [price] is a non-ENUM
    property whose first filter entry parses to operator ["inInterval"]
    with [minDate] and [maxDate]. Listed after the malformed field, no
    condition on it reaches the collection; listed twice, four do. *)
Lemma setFilters_inInterval_condition_count :
  (exists first parsed,
      malformedTableFilters !! "price" = Some (Some [first])
      /\ JSON_parse (Externals := Sample.externals) first = Ok parsed
      /\ js_get parsed "operator" = Ok (JStr "inInterval")
      /\ js_get parsed "value"
         = Ok (JObj [("minDate", JStr "2019-01-01"); ("maxDate", JStr "2019-12-31")])
      /\ attributeType <$> getPropertyInfoNN (Externals := Sample.externals) "price"
                             (entityName (store Sample.world)) (metadata Sample.mainStore)
         = Ok "DATATYPE")
  /\ setFilters (Ext := Sample.externals) (Some malformedTableFilters) ["model"; "price"]
                Sample.mainStore Sample.world
     = Throws SyntaxError Sample.world
  /\ conditions_on "price"
       (pushed (filter (store (final
          (setFilters (Ext := Sample.externals) (Some malformedTableFilters)
                      ["model"; "price"] Sample.mainStore Sample.world)))))
     = []
  /\ length (conditions_on "price"
       (pushed (filter (store (final
          (setFilters (Ext := Sample.externals) (Some malformedTableFilters)
                      ["price"; "price"] Sample.mainStore Sample.world))))))
     = 4%nat.
Proof.
  split.
  - do 2 eexists. repeat split; vm_compute; reflexivity.
  - repeat split; vm_compute; reflexivity.
Qed.

(** * Further properties *)

(** ** setSorter and the data index of a generated column *)

Module JSStringMore.
Import JSString.

Lemma substring_split (s : string) (k : nat) :
  (k <= String.length s)%nat ->
  s = String.substring 0 k s +:+ String.substring k (String.length s - k) s.
Proof.
  revert k. induction s as [|c s IH]; intros k Hk.
  - destruct k; [done | cbn in Hk; lia].
  - destruct k as [|k].
    + cbn. by rewrite JSStringFacts.substring_whole.
    + cbn in Hk. cbn.
      change (String c s = String c (String.substring 0 k s
                                     +:+ String.substring k (String.length s - k) s)).
      f_equal. apply IH. lia.
Qed.

(** A string that ends with [suffix] is some string followed by [suffix]. *)
Lemma endsWith_inv (s suffix : string) :
  endsWith s suffix = true -> exists x, s = x +:+ suffix.
Proof.
  unfold endsWith. remember (String.length suffix) as m eqn:Hm.
  intros [Hle Heq]%andb_true_iff.
  apply Nat.leb_le in Hle. apply String.eqb_eq in Heq.
  exists (String.substring 0 (String.length s - m) s).
  pose proof (substring_split s (String.length s - m)) as Hsplit.
  replace (String.length s - (String.length s - m))%nat with m in Hsplit by lia.
  rewrite Heq in Hsplit. apply Hsplit. lia.
Qed.

(** The search for a dot, started at index [i], answers [-1] or an index
    from [i] on. *)
Lemma indexOf_from_range (s : string) (i : Z) :
  indexOf_from s "." i = -1
  \/ (i <= indexOf_from s "." i < i + Z.of_nat (String.length s)).
Proof.
  revert i. induction s as [|c s IH]; intros i.
  - left. done.
  - change (indexOf_from (String c s) "." i)
      with (if String.prefix "." (String c s) then i else indexOf_from s "." (i + 1)).
    rewrite JSStringFacts.prefix_dot. cbn [String.length].
    case_bool_decide; [right; lia |].
    destruct (IH (i + 1)) as [-> | Hr]; [by left | right; lia].
Qed.

(** A string that holds a dot is found to hold one. *)
Lemma indexOf_from_dot_found (x rest : string) (i : Z) :
  0 <= i -> indexOf_from (x +:+ String "." rest) "." i <> -1.
Proof.
  revert i. induction x as [|c x IH]; intros i Hi.
  - change (indexOf_from ("" +:+ String "." rest) "." i)
      with (if String.prefix "." (String "." rest) then i
            else indexOf_from rest "." (i + 1)).
    rewrite JSStringFacts.prefix_dot, bool_decide_eq_true_2 by done. lia.
  - change (indexOf_from (String c x +:+ String "." rest) "." i)
      with (if String.prefix "." (String c (x +:+ String "." rest)) then i
            else indexOf_from (x +:+ String "." rest) "." (i + 1)).
    rewrite JSStringFacts.prefix_dot. case_bool_decide; [lia |].
    apply IH. lia.
Qed.

(** The part of [s] before its first dot: it holds no dot, and [s] is this
    part, the dot, and a rest. *)
Lemma first_dot_split (s : string) (i : Z) :
  0 <= i ->
  indexOf_from s "." i <> -1 ->
  exists head rest,
    s = head +:+ String "." rest
    /\ indexOf_from head "." 0 = -1
    /\ indexOf_from s "." i = i + Z.of_nat (String.length head).
Proof.
  revert i. induction s as [|c s IH]; intros i Hi.
  - intros Hfound. by destruct Hfound.
  - change (indexOf_from (String c s) "." i)
      with (if String.prefix "." (String c s) then i else indexOf_from s "." (i + 1)).
    rewrite JSStringFacts.prefix_dot. case_bool_decide as Hc.
    + intros _. subst c. exists "", s. repeat split. cbn [String.length]. lia.
    + intros Hfound. destruct (IH (i + 1)) as (head & rest & -> & Hnone & Hidx);
        [lia | done |].
      exists (String c head), rest. repeat split.
      * change (indexOf_from (String c head) "." 0)
          with (if String.prefix "." (String c head) then 0
                else indexOf_from head "." (0 + 1)).
        rewrite JSStringFacts.prefix_dot, bool_decide_eq_false_2 by done.
        by apply (JSStringFacts.indexOf_from_none head "." 0).
      * rewrite Hidx. cbn [String.length]. lia.
Qed.

End JSStringMore.

Lemma setSorter_plain_field (o : SortOrder) (f key defaultSort : string) (w : World) :
  JSString.endsWith f "._instanceName" = false ->
  setSorter (Some (columnSorter o f key)) defaultSort w
  = Returns tt {| store := with_sort (Some (orderPrefix o +:+ f)) (store w);
                  trace := trace w ++ [Assign "sort"] |}.
Proof.
  intros Hplain. unfold setSorter, columnSorter. cbn [order field].
  rewrite Hplain. by destruct o.
Qed.

Lemma setSorter_cut_at_first_dot (o : SortOrder) (head rest key defaultSort : string)
    (w : World) :
  JSString.endsWith (head +:+ String "." rest) "._instanceName" = true ->
  JSString.indexOf head "." = -1 ->
  setSorter (Some (columnSorter o (head +:+ String "." rest) key)) defaultSort w
  = Returns tt {| store := with_sort (Some (orderPrefix o +:+ head)) (store w);
                  trace := trace w ++ [Assign "sort"] |}.
Proof.
  intros Hends Hnodot. unfold setSorter, columnSorter. cbn [order field].
  rewrite Hends. unfold JSString.indexOf in *.
  rewrite JSStringFacts.indexOf_from_first_dot by (done || lia).
  rewrite Z.add_0_l, JSStringFacts.substring_prefix. by destruct o.
Qed.

Lemma no_dot_not_instanceName (p : string) :
  JSString.indexOf p "." = -1 -> JSString.endsWith p "._instanceName" = false.
Proof.
  intros Hnodot. destruct (JSString.endsWith p "._instanceName") eqn:Hends; [|done].
  apply JSStringMore.endsWith_inv in Hends as [x ->].
  unfold JSString.indexOf in Hnodot.
  by apply (JSStringMore.indexOf_from_dot_found x "_instanceName" 0) in Hnodot.
Qed.

(** X1. For every field that ends with ["._instanceName"], whatever the
    order, setSorter sets [sort] to the sign followed by the part of the
    field before its first dot; this part holds no dot, so a nested path is
    cut down to its first segment. *)
Theorem setSorter_instanceName_first_segment
    (o : SortOrder) (f key defaultSort : string) (w : World) :
  JSString.endsWith f "._instanceName" = true ->
  exists head rest,
    f = head +:+ "." +:+ rest
    /\ JSString.indexOf head "." = -1
    /\ setSorter (Some (columnSorter o f key)) defaultSort w
       = Returns tt {| store := with_sort (Some (orderPrefix o +:+ head)) (store w);
                       trace := trace w ++ [Assign "sort"] |}.
Proof.
  intros Hends.
  destruct (JSStringMore.endsWith_inv _ _ Hends) as [x Hx].
  assert (JSString.indexOf_from f "." 0 <> -1) as Hfound.
  { rewrite Hx. by apply (JSStringMore.indexOf_from_dot_found x "_instanceName" 0). }
  destruct (JSStringMore.first_dot_split f 0) as (head & rest & Hf & Hnodot & _);
    [done | done |].
  exists head, rest. split; [exact Hf |]. split; [exact Hnodot |].
  rewrite Hf in Hends |- *. by apply setSorter_cut_at_first_dot.
Qed.

Lemma setSorter_instanceName_first_segment_witness :
  exists head rest,
    "customer.address._instanceName" = head +:+ "." +:+ rest
    /\ JSString.indexOf head "." = -1
    /\ setSorter (Some (columnSorter ascend "customer.address._instanceName" "customer"))
                 "+model" Sample.world
       = Returns tt {| store := with_sort (Some (orderPrefix ascend +:+ head))
                                          (store Sample.world);
                       trace := trace Sample.world ++ [Assign "sort"] |}.
Proof.
  apply (setSorter_instanceName_first_segment ascend "customer.address._instanceName").
  vm_compute. reflexivity.
Defined.

Section SorterOfColumn.

Context `{Ext : Externals}.

Lemma generated_dataIndex (config : ColumnWithCustomFilterConfig) (column : ColumnProps) :
  generateColumnWithCustomFilter config = Ok column ->
  dataIndex column = cfg_propertyName config +:+ "._instanceName"
  \/ dataIndex column = cfg_propertyName config.
Proof.
  unfold generateColumnWithCustomFilter.
  destruct (getPropertyInfoNN _ _ _) as [info|]; [|done]. cbn [mbind result_bind].
  destruct (getPropertyCaption _ _ _) as [caption|]; [|done]. cbn [mbind result_bind].
  destruct (String.eqb (attributeType info) "ENUM").
  - destruct (generateEnumFilter info _) as [items|]; [|done]. cbn [mbind result_bind].
    intros [= <-]. cbn [dataIndex].
    destruct (_ || _); by auto.
  - intros [= <-]. cbn [dataIndex].
    destruct (_ || _); by auto.
Qed.

(** X2. Sorting on a generated column sorts by its property: for every
    property name without a dot and every attribute type, when
    generateColumnWithCustomFilter returns a column, setSorter applied to
    the sorter of that column (its [dataIndex] as field) sets [sort] to
    the sign followed by the property name. *)
Theorem setSorter_of_generated_column
    (config : ColumnWithCustomFilterConfig) (column : ColumnProps)
    (o : SortOrder) (key defaultSort : string) (w : World) :
  generateColumnWithCustomFilter config = Ok column ->
  JSString.indexOf (cfg_propertyName config) "." = -1 ->
  setSorter (Some (columnSorter o (dataIndex column) key)) defaultSort w
  = Returns tt {| store := with_sort (Some (orderPrefix o +:+ cfg_propertyName config))
                                     (store w);
                  trace := trace w ++ [Assign "sort"] |}.
Proof.
  intros Hcolumn Hnodot.
  destruct (generated_dataIndex _ _ Hcolumn) as [-> | ->].
  - change (cfg_propertyName config +:+ "._instanceName")
      with (cfg_propertyName config +:+ String "." "_instanceName").
    apply setSorter_cut_at_first_dot; [|done].
    apply (JSStringFacts.endsWith_append _ "._instanceName").
  - apply setSorter_plain_field. by apply no_dot_not_instanceName.
Qed.

End SorterOfColumn.

Lemma setSorter_of_generated_column_witness :
  exists column,
    generateColumnWithCustomFilter (sampleConfig "garage") = Ok column
    /\ sort (store (final (setSorter (Some (columnSorter descend (dataIndex column) "garage"))
                                     "+model" Sample.world)))
       = Some "-garage".
Proof.
  assert (dataIndex <$> generateColumnWithCustomFilter (sampleConfig "garage")
          = Ok "garage._instanceName") as Hindex by (vm_compute; reflexivity).
  destruct (generateColumnWithCustomFilter (sampleConfig "garage")) as [column|] eqn:Hcolumn;
    [|discriminate Hindex].
  exists column. split; [reflexivity |].
  rewrite (setSorter_of_generated_column (Ext := Sample.externals)
             (sampleConfig "garage") column descend "garage" "+model" Sample.world Hcolumn);
    [reflexivity | vm_compute; reflexivity].
Defined.

(** ** setFilters: the comparison branch, and what makes a pass throw *)

Lemma js_get_throws (v : jsval) (k : string) (e : JSError) :
  js_get v k = Err e <-> (v = JUndefined \/ v = JNull) /\ e = TypeError.
Proof.
  split.
  - destruct v; cbn; intros [= <-] || intros [=]; by auto.
  - intros [[-> | ->] ->]; done.
Qed.

Lemma js_strict_eq_str_true (v : jsval) (s : string) :
  js_strict_eq_str v s = true <-> v = JStr s.
Proof.
  split.
  - destruct v as [| | | |t| |]; try done. cbn. by intros ->%String.eqb_eq.
  - intros ->. cbn. apply String.eqb_refl.
Qed.

Lemma forEach_ext {A S} (f g : S -> A -> result S) (l : list A) (s : S) :
  (forall s x, f s x = g s x) -> forEach f l s = forEach g l s.
Proof.
  intros Hext. revert s. induction l as [|x l IH]; intros s; [done |].
  cbn [forEach]. rewrite Hext. destruct (g s x); [apply IH | done].
Qed.

Section SetFiltersMore.

Context `{Ext : Externals}.

(** X3. Let [p] be a property of a non-ENUM attribute type whose first
    [tableFilters] entry parses to an object with an operator other than
    ["inInterval"]. The callback of setFilters, run for [p], pushes exactly
    one condition, with the parsed operator and value. Hence, for [p] listed
    in [fields] between [before] and [after], and provided these are
    processed without an exception, setFilters returns normally and assigns
    to [dataCollection.filter] the conditions pushed for [before], then
    that condition, then the conditions pushed for [after]; when [p] is
    listed this once only, it is the one condition on [p]. *)
Theorem setFilters_comparison_condition
    (tableFilters : gmap string (option (list string)))
    (mainStore : MainStore) (w : World)
    (p first : string) (rest : list string) (info : MetaPropertyInfo)
    (parsed op v : jsval) :
  tableFilters !! p = Some (Some (first :: rest)) ->
  getPropertyInfoNN p (entityName (store w)) (metadata mainStore) = Ok info ->
  attributeType info <> "ENUM" ->
  JSON_parse first = Ok parsed ->
  js_get parsed "operator" = Ok op ->
  op <> JStr "inInterval" ->
  js_get parsed "value" = Ok v ->
  let c := {| property := p; operator := op; value := v |} in
  (forall acc,
      setFilters_callback tableFilters mainStore (store w) acc p
      = Ok (Some (push (default {| conditions := [] |} acc) c)))
  /\ (forall before after r1 r2,
         forEach (setFilters_callback tableFilters mainStore (store w)) before None = Ok r1 ->
         forEach (setFilters_callback tableFilters mainStore (store w)) after None = Ok r2 ->
         exists w',
           setFilters (Some tableFilters) (before ++ p :: after) mainStore w = Returns tt w'
           /\ filter (store w')
              = Some {| conditions := pushed r1 ++ [Plain c] ++ pushed r2 |}
           /\ (p ∉ before -> p ∉ after ->
               conditions_on p (pushed (filter (store w'))) = [Plain c])).
Proof.
  intros Hentry Hinfo Hscalar Hparse Hop Hplain Hval c.
  assert (forall acc,
             setFilters_callback tableFilters mainStore (store w) acc p
             = Ok (Some (push (default {| conditions := [] |} acc) c))) as Hstep.
  { intros acc. unfold setFilters_callback. rewrite Hentry, Hinfo.
    cbn [mbind result_bind].
    rewrite (proj2 (String.eqb_neq _ _) Hscalar), Hparse.
    cbn [mbind result_bind]. rewrite Hop.
    cbn [mbind result_bind]. rewrite Hval.
    cbn [mbind result_bind]. by rewrite js_strict_eq_str_false. }
  split; [exact Hstep |].
  intros before after r1 r2 H1 H2.
  rewrite setFilters_outcome.
  rewrite (forEach_split _ _ _ before p after r1 [Plain c] r2 H1); [| |exact H2].
  - eexists. split; [reflexivity |].
    assert (with_conditions None (pushed r1 ++ [Plain c] ++ pushed r2)
            = Some {| conditions := pushed r1 ++ [Plain c] ++ pushed r2 |}) as Hfilter
      by by destruct (pushed r1).
    cbn [store filter with_filter]. rewrite Hfilter. split; [done |].
    intros Hbefore Hafter. cbn [pushed conditions]. unfold conditions_on.
    rewrite !List.filter_app. fold (conditions_on p (pushed r1)) (conditions_on p (pushed r2)).
    rewrite (conditions_on_other p before), (conditions_on_other p after)
      by eauto using forEach_pushes_listed.
    cbn. by rewrite String.eqb_refl.
  - intros acc. by rewrite Hstep, push_with_conditions.
Qed.

(** X4. For a property that is not of ENUM attribute type only the first
    entry of its filter array counts: dropping the further entries changes
    nothing in what setFilters does, for every list of fields. *)
Theorem setFilters_reads_first_entry_only
    (tableFilters : gmap string (option (list string)))
    (fields : list string) (mainStore : MainStore) (w : World)
    (p first : string) (rest : list string) :
  tableFilters !! p = Some (Some (first :: rest)) ->
  (forall info,
      getPropertyInfoNN p (entityName (store w)) (metadata mainStore) = Ok info ->
      attributeType info <> "ENUM") ->
  setFilters (Some (<[p := Some [first]]> tableFilters)) fields mainStore w
  = setFilters (Some tableFilters) fields mainStore w.
Proof.
  intros Hentry Hscalar. rewrite !setFilters_outcome.
  rewrite (forEach_ext _ (setFilters_callback tableFilters mainStore (store w))); [done |].
  intros acc q. unfold setFilters_callback.
  destruct (decide (p = q)) as [<- | Hne].
  - rewrite lookup_insert_eq, Hentry.
    destruct (getPropertyInfoNN _ _ _) as [info|] eqn:Hinfo; [|done].
    cbn [mbind result_bind].
    by rewrite (proj2 (String.eqb_neq _ _) (Hscalar info eq_refl)).
  - by rewrite lookup_insert_ne.
Qed.

(** X5. The callback of setFilters throws in these cases and no other: the
    property has a present, non-empty filter array and either the metadata
    lookup throws, or the property is not of ENUM type and [JSON.parse] of
    the first entry throws, or yields [null] (or no object at all), or
    yields operator ["inInterval"] with a value that is [null] or
    [undefined]; in the last cases the error is a TypeError. *)
Theorem setFilters_callback_throws_iff
    (tableFilters : gmap string (option (list string)))
    (mainStore : MainStore) (dataCollection : DataCollectionStore)
    (acc : option EntityFilter) (p : string) (e : JSError) :
  setFilters_callback tableFilters mainStore dataCollection acc p = Err e
  <-> exists first rest,
        tableFilters !! p = Some (Some (first :: rest))
        /\ (getPropertyInfoNN p (entityName dataCollection) (metadata mainStore) = Err e
            \/ exists info,
                 getPropertyInfoNN p (entityName dataCollection) (metadata mainStore) = Ok info
                 /\ attributeType info <> "ENUM"
                 /\ (JSON_parse first = Err e
                     \/ exists parsed,
                          JSON_parse first = Ok parsed
                          /\ e = TypeError
                          /\ (parsed = JUndefined \/ parsed = JNull
                              \/ (js_get parsed "operator" = Ok (JStr "inInterval")
                                  /\ (js_get parsed "value" = Ok JUndefined
                                      \/ js_get parsed "value" = Ok JNull))))).
Proof.
  unfold setFilters_callback. split.
  - destruct (tableFilters !! p) as [[[|first rest]|]|]; try done.
    intros Hthrow. exists first, rest. split; [done |].
    destruct (getPropertyInfoNN _ _ _) as [info|e0]; [|left; by inversion Hthrow].
    right. exists info. split; [done |]. cbn [mbind result_bind] in Hthrow.
    destruct (String.eqb_spec (attributeType info) "ENUM") as [|Hscalar]; [done |].
    split; [done |].
    destruct (JSON_parse first) as [parsed|e0]; [|left; by inversion Hthrow].
    right. exists parsed. split; [done |]. cbn [mbind result_bind] in Hthrow.
    destruct (js_get parsed "operator") as [op|e0] eqn:Hop.
    2:{ injection Hthrow as <-. apply js_get_throws in Hop as [Hnull ->].
        split; [done |]. destruct Hnull; by auto. }
    cbn [mbind result_bind] in Hthrow.
    destruct (js_get parsed "value") as [v|e0] eqn:Hval.
    2:{ injection Hthrow as <-. apply js_get_throws in Hval as [Hnull ->].
        split; [done |]. destruct Hnull; by auto. }
    cbn [mbind result_bind] in Hthrow.
    destruct (js_strict_eq_str op "inInterval") eqn:Hinterval; [|done].
    apply js_strict_eq_str_true in Hinterval as ->.
    destruct (js_get v "minDate") as [lo|e0] eqn:Hlo.
    2:{ injection Hthrow as <-. apply js_get_throws in Hlo as [Hnull ->].
        split; [done |]. right. right. split; [done |].
        destruct Hnull as [-> | ->]; by auto. }
    cbn [mbind result_bind] in Hthrow.
    destruct (js_get v "maxDate") as [hi|e0] eqn:Hhi; [done |].
    injection Hthrow as <-. apply js_get_throws in Hhi as [Hnull ->].
    split; [done |]. right. right. split; [done |].
    destruct Hnull as [-> | ->]; by auto.
  - intros (first & rest & -> & Hcause).
    destruct Hcause as [-> | (info & -> & Hscalar & Hcause)]; [done |].
    cbn [mbind result_bind]. rewrite (proj2 (String.eqb_neq _ _) Hscalar).
    destruct Hcause as [-> | (parsed & -> & -> & Hcause)]; [done |].
    cbn [mbind result_bind].
    destruct Hcause as [-> | [-> | [-> Hval]]]; [done | done |].
    cbn [mbind result_bind].
    destruct Hval as [-> | ->]; done.
Qed.

(** X6. setFilters throws the error of the first listed field whose
    callback throws, and then leaves the world as it was: the collection
    keeps its old filter and nothing is logged. *)
Theorem setFilters_throws_first_error
    (tableFilters : gmap string (option (list string)))
    (mainStore : MainStore) (w : World)
    (before after : list string) (p : string) (r1 : option EntityFilter) (e : JSError) :
  forEach (setFilters_callback tableFilters mainStore (store w)) before None = Ok r1 ->
  setFilters_callback tableFilters mainStore (store w) None p = Err e ->
  setFilters (Some tableFilters) (before ++ p :: after) mainStore w = Throws e w.
Proof.
  intros Hbefore Hthrow. rewrite setFilters_outcome, forEach_app, Hbefore.
  cbn [mbind result_bind forEach].
  by rewrite callback_appends, Hthrow.
Qed.

End SetFiltersMore.

Lemma setFilters_comparison_condition_witness :
  exists w',
    setFilters (Ext := Sample.externals) (Some sampleTableFilters)
               ["price"; "model"] Sample.mainStore Sample.world
    = Returns tt w'
    /\ filter (store w')
       = Some {| conditions :=
                   [Plain {| property := "model"; operator := JStr "contains";
                             value := JStr "Golf" |}] |}.
Proof.
  destruct (proj2 (setFilters_comparison_condition (Ext := Sample.externals)
                     sampleTableFilters Sample.mainStore Sample.world
                     "model" _ []
                     {| mp_name := "model"; mp_type := "string"; attributeType := "DATATYPE" |}
                     (JObj [("operator", JStr "contains"); ("value", JStr "Golf")])
                     (JStr "contains") (JStr "Golf")
                     ltac:(vm_compute; reflexivity) ltac:(vm_compute; reflexivity)
                     ltac:(discriminate) ltac:(vm_compute; reflexivity)
                     ltac:(reflexivity) ltac:(discriminate) ltac:(reflexivity))
                  ["price"] [] None None
                  ltac:(vm_compute; reflexivity) ltac:(vm_compute; reflexivity))
    as (w' & Hrun & Hfilter & _).
  exists w'. split; [exact Hrun | exact Hfilter].
Defined.

Lemma setFilters_reads_first_entry_only_witness :
  setFilters (Ext := Sample.externals)
             (Some (<["model" := Some [Sample.stringify
                                         (JObj [("operator", JStr "contains");
                                                ("value", JStr "Golf")])]]>
                      twoEntryTableFilters))
             ["model"] Sample.mainStore Sample.world
  = setFilters (Ext := Sample.externals) (Some twoEntryTableFilters)
               ["model"] Sample.mainStore Sample.world.
Proof.
  apply (setFilters_reads_first_entry_only (Ext := Sample.externals)
           twoEntryTableFilters ["model"] Sample.mainStore Sample.world "model" _ ["ignored"]).
  - vm_compute. reflexivity.
  - intros info Hinfo. vm_compute in Hinfo. injection Hinfo as <-. discriminate.
Defined.

Lemma setFilters_throws_first_error_witness :
  setFilters (Ext := Sample.externals) (Some malformedTableFilters)
             ["carType"; "model"; "price"] Sample.mainStore Sample.world
  = Throws SyntaxError Sample.world.
Proof.
  apply (setFilters_throws_first_error (Ext := Sample.externals)
           malformedTableFilters Sample.mainStore Sample.world
           ["carType"] ["price"] "model"
           (Some {| conditions := [Plain {| property := "carType"; operator := JStr "in";
                                            value := JArr [JStr "SEDAN"] |}] |})
           SyntaxError);
    vm_compute; reflexivity.
Defined.

(** ** The shape of the filter that setFilters stores *)

Lemma last_with_property_Some (p : string) (cs : list Condition) (c : Condition) :
  last_with_property p cs = Some c -> c ∈ cs /\ property c = p.
Proof.
  induction cs as [|c0 cs IH]; [done |]. cbn [last_with_property].
  destruct (last_with_property p cs) as [c'|].
  - intros [= ->]. destruct IH as [Hin Hp]; [done |]. split; [by right | done].
  - destruct (String.eqb_spec (property c0) p) as [Heq|]; [|done].
    intros [= <-]. split; [by left | done].
Qed.

Lemma last_with_property_is_Some (p : string) (cs : list Condition) :
  p ∈ property <$> cs -> is_Some (last_with_property p cs).
Proof.
  induction cs as [|c0 cs IH]; [by intros ?%elem_of_nil |].
  rewrite fmap_cons. intros [-> | Hin]%elem_of_cons; cbn [last_with_property].
  - destruct (last_with_property (property c0) cs); [by eexists |].
    rewrite String.eqb_refl. by eexists.
  - destruct (IH Hin) as [c' ->]. by eexists.
Qed.

Lemma Forall_plain (P : Condition -> Prop) (l : list ConditionOrGroup) :
  Forall (fun x => exists c, x = Plain c /\ P c) l ->
  exists cs, l = Plain <$> cs /\ Forall P cs.
Proof.
  induction 1 as [|x l (c & -> & Hc) _ (cs & -> & Hcs)].
  - by exists [].
  - exists (c :: cs). split; [done | by constructor].
Qed.

Section StoredFilter.

Context `{Ext : Externals}.
Variable tableFilters : gmap string (option (list string)).
Variable mainStore : MainStore.
Variable dataCollection : DataCollectionStore.

Abbreviation callback := (setFilters_callback tableFilters mainStore dataCollection).

Lemma callback_shape q r :
  callback None q = Ok r -> pass_shape tableFilters [q] r.
Proof.
  destruct (has_filter tableFilters q) eqn:Hhas.
  2:{ rewrite callback_no_filter by done. intros [= <-].
      repeat split; try done; cbn; try lia; try constructor.
      by intros _ p ->%list_elem_of_singleton. }
  assert (forall c : Condition, property c = q ->
            exists c', Plain c = Plain c'
                       /\ (property c' ∈ [q]
                           /\ has_filter tableFilters (property c') = true)) as Hown.
  { intros c Hc. exists c. split; [done |]. rewrite Hc. split; [by left | done]. }
  assert (forall ef : EntityFilter,
            (Some ef = None
             <-> forall p, p ∈ [q] -> has_filter tableFilters p = false)) as Hsome.
  { intros ef. split; [done |]. intros Hnone.
    specialize (Hnone q ltac:(by left)). congruence. }
  unfold setFilters_callback, pass_shape. unfold has_filter in Hhas.
  destruct (tableFilters !! q) as [[[|first rest]|]|]; [done | | done | done].
  destruct (getPropertyInfoNN _ _ _) as [info|]; [|done]. cbn [mbind result_bind].
  destruct (String.eqb (attributeType info) "ENUM").
  { intros [= <-]. split; [apply Hsome |]. repeat split; try done; cbn; try lia.
    repeat constructor. by apply Hown. }
  destruct (JSON_parse first) as [parsed|]; [|done]. cbn [mbind result_bind].
  destruct (js_get parsed "operator") as [op|]; [|done]. cbn [mbind result_bind].
  destruct (js_get parsed "value") as [v|]; [|done]. cbn [mbind result_bind].
  destruct (js_strict_eq_str op "inInterval").
  - destruct (js_get v "minDate") as [lo|]; [|done]. cbn [mbind result_bind].
    destruct (js_get v "maxDate") as [hi|]; [|done]. cbn [mbind result_bind].
    intros [= <-]. split; [apply Hsome |]. repeat split; try done; cbn; try lia.
    repeat constructor; by apply Hown.
  - intros [= <-]. split; [apply Hsome |]. repeat split; try done; cbn; try lia.
    repeat constructor. by apply Hown.
Qed.

Lemma forEach_shape fields r :
  forEach callback fields None = Ok r -> pass_shape tableFilters fields r.
Proof.
  revert r. induction fields as [|q fields IH]; intros r.
  - intros [= <-]. repeat split; try done; cbn; try lia; try constructor.
    intros _ p Hp. by apply elem_of_nil in Hp.
  - cbn [forEach].
    destruct (callback None q) as [r1|] eqn:Hq; [|done]. cbn [mbind result_bind].
    rewrite forEach_appends.
    destruct (forEach callback fields None) as [r2|]; [|done]. cbn [mbind result_bind].
    intros [= <-].
    destruct (callback_shape q r1 Hq) as (Hn1 & He1 & Hl1 & Hf1).
    destruct (IH r2 eq_refl) as (Hn2 & He2 & Hl2 & Hf2).
    assert (with_conditions r1 (pushed r2) = None <-> r1 = None /\ r2 = None) as Hnone.
    { destruct (pushed r2) as [|x l] eqn:Hp2; cbn.
      - rewrite He2. split; [by auto | by intros []].
      - split; [done |]. intros [_ Hr2]. apply He2 in Hr2. congruence. }
    unfold pass_shape. rewrite pushed_with_conditions.
    split; [|split; [|split]].
    + rewrite Hnone, Hn1, Hn2. split.
      * intros [H1 H2] p [-> | Hp]%elem_of_cons; [apply H1; by left | by apply H2].
      * intros Hall. split; intros p Hp; apply Hall.
        -- apply list_elem_of_singleton in Hp as ->. by left.
        -- by right.
    + rewrite Hnone, He1, He2. split.
      * by intros [-> ->].
      * by intros [-> ->]%app_eq_nil.
    + rewrite length_app. cbn [length] in *. lia.
    + apply Forall_app. split.
      * eapply Forall_impl; [exact Hf1 |].
        intros x (c & -> & Hin & Hhas). exists c. split; [done |]. split; [|done].
        apply list_elem_of_singleton in Hin as ->. by left.
      * eapply Forall_impl; [exact Hf2 |].
        intros x (c & -> & Hin & Hhas). exists c. split; [done |]. split; [by right | done].
Qed.

End StoredFilter.

Section StoredFilterClaims.

Context `{Ext : Externals}.


(** X8. A filter stored by setFilters can always be converted back:
    entityFilterToTableFilters does not throw on it, and the table filters
    it returns have entries for listed properties only. *)
Theorem entityFilterToTableFilters_of_stored_filter
    (tableFilters : gmap string (option (list string)))
    (fields : list string) (mainStore : MainStore) (w w' : World) (ef : EntityFilter) :
  setFilters (Some tableFilters) fields mainStore w = Returns tt w' ->
  filter (store w') = Some ef ->
  exists back,
    entityFilterToTableFilters ef = Ok back
    /\ forall p, is_Some (back !! p) -> p ∈ fields.
Proof.
  rewrite setFilters_outcome.
  destruct (forEach _ fields None) as [r|] eqn:Hpass; [|done].
  intros [= <-]. cbn [store filter with_filter]. intros ->.
  destruct (forEach_shape _ _ _ _ _ Hpass) as (_ & _ & _ & Hall).
  apply Forall_plain in Hall as (cs & Hcs & Hlisted). cbn [pushed] in Hcs.
  unfold entityFilterToTableFilters. rewrite Hcs.
  destruct (forEach_plain cs ∅) as (back & Hrun & Hlookup).
  exists back. split; [exact Hrun |].
  intros p. rewrite Hlookup.
  destruct (last_with_property p cs) as [c|] eqn:Hlast.
  - intros _. apply last_with_property_Some in Hlast as [Hin <-].
    rewrite Forall_forall in Hlisted. by apply Hlisted.
  - rewrite lookup_empty. by intros [? [=]].
Qed.

(** X9. The entries of the table filters that entityFilterToTableFilters
    returns are exactly the properties of the conditions, and each entry is
    a present, non-empty array, so that setFilters will take every one of
    them into account. *)
Theorem entityFilterToTableFilters_entries
    (entityFilter : EntityFilter) (tableFilters : gmap string (option (list string))) :
  entityFilterToTableFilters entityFilter = Ok tableFilters ->
  forall p,
    (is_Some (tableFilters !! p)
     <-> exists c, Plain c ∈ conditions entityFilter /\ property c = p)
    /\ (is_Some (tableFilters !! p) -> has_filter tableFilters p = true).
Proof.
  unfold entityFilterToTableFilters. intros Hrun p.
  destruct (plain_or_nested (conditions entityFilter)) as [[cs Hcs] | [g Hg]].
  2:{ by rewrite (forEach_nested _ g ∅ Hg) in Hrun. }
  rewrite Hcs in Hrun |- *.
  destruct (forEach_plain cs ∅) as (result & Hrun' & Hlookup).
  assert (result = tableFilters) as -> by congruence.
  unfold has_filter. rewrite Hlookup.
  destruct (last_with_property p cs) as [c|] eqn:Hlast.
  - split; [|done]. split; [|by eexists].
    intros _. apply last_with_property_Some in Hlast as [Hin Hp].
    exists c. split; [|done]. by apply list_elem_of_fmap_2.
  - rewrite lookup_empty. split; [|by intros [? [=]]].
    split; [by intros [? [=]] |].
    intros (c & Hin & <-).
    apply list_elem_of_fmap in Hin as (c' & [= <-] & Hin).
    destruct (last_with_property_is_Some (property c) cs) as [? Hsome];
      [by apply list_elem_of_fmap_2 | congruence].
Qed.

(** X10. Whenever the conditions hold a nested group, wherever it stands in
    the list, entityFilterToTableFilters throws the same Error, with the
    message that a filter with a conditions group cannot be converted; no
    partial result is returned. *)
Theorem entityFilterToTableFilters_group_error
    (entityFilter : EntityFilter) (g : ConditionsGroup) :
  Nested g ∈ conditions entityFilter ->
  entityFilterToTableFilters entityFilter
  = Err (Error "EntityFilter with ConditionsGroup cannot be converted to table filters").
Proof. intros Hg. by apply (forEach_nested _ g). Qed.

End StoredFilterClaims.


Lemma entityFilterToTableFilters_of_stored_filter_witness :
  exists back,
    entityFilterToTableFilters (Ext := Sample.externals)
      {| conditions :=
           [ Plain {| property := "model"; operator := JStr "contains";
                      value := JStr "Golf" |};
             Plain {| property := "carType"; operator := JStr "in";
                      value := JArr [JStr "SEDAN"; JStr "HATCHBACK"] |} ] |}
    = Ok back
    /\ forall p, is_Some (back !! p) -> p ∈ ["model"; "carType"; "price"].
Proof.
  apply (entityFilterToTableFilters_of_stored_filter (Ext := Sample.externals)
           sampleTableFilters ["model"; "carType"; "price"] Sample.mainStore Sample.world
           (final (setFilters (Ext := Sample.externals) (Some sampleTableFilters)
                              ["model"; "carType"; "price"]
                              Sample.mainStore Sample.world)));
    vm_compute; reflexivity.
Defined.

Lemma entityFilterToTableFilters_entries_witness :
  exists tableFilters,
    entityFilterToTableFilters (Ext := Sample.externals)
      {| conditions := Plain <$> golfOver100 |} = Ok tableFilters
    /\ has_filter tableFilters "price" = true
    /\ tableFilters !! "carType" = None.
Proof.
  destruct (entityFilterToTableFilters (Ext := Sample.externals)
              {| conditions := Plain <$> golfOver100 |}) as [tableFilters|] eqn:Hrun;
    [|vm_compute in Hrun; discriminate Hrun].
  exists tableFilters. split; [reflexivity |].
  pose proof (entityFilterToTableFilters_entries (Ext := Sample.externals) _ _ Hrun) as Hentries.
  split.
  - destruct (Hentries "price") as [Hiff Hhas]. apply Hhas, Hiff.
    exists {| property := "price"; operator := JStr ">"; value := JNum 100 |}.
    split; [right; left | reflexivity].
  - destruct (Hentries "carType") as [Hiff _].
    destruct (tableFilters !! "carType") as [entry|] eqn:Hentry; [|reflexivity].
    destruct (proj1 Hiff (ex_intro _ entry eq_refl)) as (c & Hin & Hc).
    apply list_elem_of_In in Hin.
    destruct Hin as [[= <-] | [[= <-] | []]]; discriminate Hc.
Defined.

Lemma entityFilterToTableFilters_group_error_witness :
  entityFilterToTableFilters (Ext := Sample.externals) groupedFilter
  = Err (Error "EntityFilter with ConditionsGroup cannot be converted to table filters").
Proof.
  apply (entityFilterToTableFilters_group_error (Ext := Sample.externals) groupedFilter
           {| group := "OR";
              group_conditions :=
                [ {| property := "price"; operator := JStr "<"; value := JNum 5 |};
                  {| property := "price"; operator := JStr ">"; value := JNum 9 |} ] |}).
  right. left.
Defined.

(** ** From the table filters to the collection and back *)

Section BackAndForth.

Context `{Ext : Externals}.

(** X11. A condition on an ENUM property is not restored by the trip
    through the table filters: entityFilterToTableFilters stores the JSON
    string of its operator and value, and setFilters, which takes the
    entries of an ENUM property for the selected values, then sets an ["in"]
    condition whose value is the array holding that JSON string. *)
Theorem enum_condition_becomes_in_json
    (c : Condition) (mainStore : MainStore) (w : World) (info : MetaPropertyInfo) :
  getPropertyInfoNN (property c) (entityName (store w)) (metadata mainStore) = Ok info ->
  attributeType info = "ENUM" ->
  exists tableFilters w',
    entityFilterToTableFilters {| conditions := [Plain c] |} = Ok tableFilters
    /\ setFilters (Some tableFilters) [property c] mainStore w = Returns tt w'
    /\ filter (store w')
       = Some {| conditions :=
                   [Plain {| property := property c;
                             operator := JStr "in";
                             value := JArr [JStr (JSON_stringify (payload c))] |}] |}.
Proof.
  intros Hinfo Henum. eexists. eexists. split; [reflexivity |].
  rewrite setFilters_outcome. cbn [forEach].
  unfold setFilters_callback. rewrite lookup_insert_eq, Hinfo.
  cbn [mbind result_bind]. rewrite Henum. split; reflexivity.
Qed.


Lemma forEach_canonical tableFilters mainStore dataCollection fields acc :
  (forall p, p ∈ fields -> canonical_entry tableFilters mainStore dataCollection p) ->
  exists cs,
    forEach (setFilters_callback tableFilters mainStore dataCollection) fields acc
    = Ok (with_conditions acc (Plain <$> cs))
    /\ property <$> cs = fields
    /\ Forall (fun c => exists first rest,
                           tableFilters !! property c = Some (Some (first :: rest))
                           /\ JSON_stringify (payload c) = first) cs.
Proof.
  revert acc. induction fields as [|p fields IH]; intros acc Hall.
  - exists []. by repeat split.
  - destruct (Hall p) as (first & rest & info & parsed & op & v & Hentry & Hinfo
                          & Hscalar & Hparse & Hop & Hplain & Hval & Hcanon); [by left |].
    destruct (IH (with_conditions acc [Plain {| property := p; operator := op; value := v |}]))
      as (cs & Hrun & Hprops & Hentries).
    { intros q Hq. apply Hall. by right. }
    exists ({| property := p; operator := op; value := v |} :: cs).
    split; [|split].
    + assert (setFilters_callback tableFilters mainStore dataCollection acc p
              = Ok (with_conditions acc [Plain {| property := p; operator := op;
                                                  value := v |}])) as Hstep.
      { unfold setFilters_callback. rewrite Hentry, Hinfo.
        cbn [mbind result_bind].
        rewrite (proj2 (String.eqb_neq _ _) Hscalar), Hparse.
        cbn [mbind result_bind]. rewrite Hop.
        cbn [mbind result_bind]. rewrite Hval.
        cbn [mbind result_bind]. rewrite js_strict_eq_str_false by done.
        by rewrite push_with_conditions. }
      cbn [forEach]. rewrite Hstep. cbn [mbind result_bind].
      rewrite Hrun, with_conditions_app. done.
    + rewrite fmap_cons. cbn [property]. by rewrite Hprops.
    + constructor; [|exact Hentries].
      exists first, rest. by split.
Qed.

(** X13. Table filters made of serialised comparisons come back from the
    collection: when every listed property has a canonical first entry (see
    [canonical_entry]) and at least one property is listed, setFilters
    returns and stores a filter, entityFilterToTableFilters of that filter
    returns, and the table filters it gives hold, for each listed property,
    the first entry of the original array, and nothing for any other
    property. *)
Theorem table_filters_come_back
    (tableFilters : gmap string (option (list string)))
    (fields : list string) (mainStore : MainStore) (w : World) :
  fields <> [] ->
  (forall p, p ∈ fields -> canonical_entry tableFilters mainStore (store w) p) ->
  exists w' ef back,
    setFilters (Some tableFilters) fields mainStore w = Returns tt w'
    /\ filter (store w') = Some ef
    /\ entityFilterToTableFilters ef = Ok back
    /\ (forall p, p ∈ fields ->
          exists first rest,
            tableFilters !! p = Some (Some (first :: rest))
            /\ back !! p = Some (Some [first]))
    /\ (forall p, p ∉ fields -> back !! p = None).
Proof.
  intros Hnonempty Hall.
  destruct (forEach_canonical tableFilters mainStore (store w) fields None Hall)
    as (cs & Hrun & Hprops & Hentries).
  destruct (forEach_plain cs ∅) as (back & Hback & Hlookup).
  rewrite setFilters_outcome, Hrun.
  assert (with_conditions None (Plain <$> cs) = Some {| conditions := Plain <$> cs |})
    as Hfilter.
  { destruct cs as [|c cs]; [|done]. by destruct fields. }
  eexists. exists {| conditions := Plain <$> cs |}, back.
  split; [reflexivity |]. split; [exact Hfilter |]. split; [exact Hback |]. split.
  - intros p Hp. rewrite Hlookup.
    destruct (last_with_property_is_Some p cs) as [c Hlast]; [by rewrite Hprops |].
    rewrite Hlast. apply last_with_property_Some in Hlast as [Hin <-].
    rewrite Forall_forall in Hentries.
    destruct (Hentries c Hin) as (first & rest & Hentry & <-).
    by exists (JSON_stringify (payload c)), rest.
  - intros p Hp. rewrite Hlookup, last_with_property_fresh by by rewrite Hprops.
    apply lookup_empty.
Qed.

End BackAndForth.

Lemma enum_condition_becomes_in_json_witness :
  exists tableFilters w',
    entityFilterToTableFilters (Ext := Sample.externals)
      {| conditions := [Plain {| property := "carType"; operator := JStr "=";
                                 value := JStr "SEDAN" |}] |} = Ok tableFilters
    /\ setFilters (Ext := Sample.externals) (Some tableFilters) ["carType"]
                  Sample.mainStore Sample.world = Returns tt w'
    /\ filter (store w')
       = Some {| conditions :=
                   [Plain {| property := "carType"; operator := JStr "in";
                             value := JArr [JStr (Sample.stringify
                                                    (JObj [("operator", JStr "=");
                                                           ("value", JStr "SEDAN")]))] |}] |}.
Proof.
  apply (enum_condition_becomes_in_json (Ext := Sample.externals)
           {| property := "carType"; operator := JStr "="; value := JStr "SEDAN" |}
           Sample.mainStore Sample.world
           {| mp_name := "carType"; mp_type := "com.company.scr.entity.CarType";
              attributeType := "ENUM" |});
    [vm_compute; reflexivity | reflexivity].
Defined.


Lemma table_filters_come_back_witness :
  exists w' ef back,
    setFilters (Ext := Sample.externals) (Some twoEntryTableFilters) ["model"]
               Sample.mainStore Sample.world = Returns tt w'
    /\ filter (store w') = Some ef
    /\ entityFilterToTableFilters (Ext := Sample.externals) ef = Ok back
    /\ (forall p, p ∈ ["model"] ->
          exists first rest,
            twoEntryTableFilters !! p = Some (Some (first :: rest))
            /\ back !! p = Some (Some [first]))
    /\ (forall p, p ∉ ["model"] -> back !! p = None).
Proof.
  apply (table_filters_come_back (Ext := Sample.externals)
           twoEntryTableFilters ["model"] Sample.mainStore Sample.world).
  - discriminate.
  - intros p Hp. apply list_elem_of_singleton in Hp as ->.
    exists (Sample.stringify (JObj [("operator", JStr "contains"); ("value", JStr "Golf")])),
      ["ignored"],
      {| mp_name := "model"; mp_type := "string"; attributeType := "DATATYPE" |},
      (JObj [("operator", JStr "contains"); ("value", JStr "Golf")]),
      (JStr "contains"), (JStr "Golf").
    repeat split; first [discriminate | vm_compute; reflexivity].
Defined.

(** ** generateColumnWithCustomFilter and generateEnumFilter: edge cases *)

Lemma find_unique_name (all : list EnumInfo) (e : EnumInfo) :
  NoDup (en_name <$> all) ->
  e ∈ all ->
  List.find (fun x => String.eqb (en_name x) (en_name e)) all = Some e.
Proof.
  induction all as [|x all IH]; intros Hnodup Hin; [by apply elem_of_nil in Hin |].
  rewrite fmap_cons in Hnodup. apply NoDup_cons in Hnodup as [Hfresh Hnodup].
  cbn [List.find]. apply elem_of_cons in Hin as [-> | Hin].
  - by rewrite String.eqb_refl.
  - rewrite (proj2 (String.eqb_neq _ _)); [by apply IH |].
    intros Heq. apply Hfresh. rewrite Heq. by apply list_elem_of_fmap_2.
Qed.

Lemma find_no_name (all : list EnumInfo) (name : string) :
  (forall e, e ∈ all -> en_name e <> name) ->
  List.find (fun x => String.eqb (en_name x) name) all = None.
Proof.
  induction all as [|x all IH]; intros Hnone; [done |].
  cbn [List.find]. rewrite (proj2 (String.eqb_neq _ _)) by (apply Hnone; by left).
  apply IH. intros e He. apply Hnone. by right.
Qed.

Section ColumnEdgeCases.

Context `{Ext : Externals}.

(** X14. generateEnumFilter throws a TypeError when the enums of the main
    store are not loaded. With the enums loaded it returns the empty list
    when no enum bears the name of the property type, and otherwise, the
    enum names being distinct, one item for each value of that enum, in the
    order of the values, with the caption as text and the name as value. *)
Theorem generateEnumFilter_cases (propertyInfo : MetaPropertyInfo) (mainStore : MainStore) :
  (enums mainStore = None -> generateEnumFilter propertyInfo mainStore = Err TypeError)
  /\ (forall all,
         enums mainStore = Some all ->
         (forall e, e ∈ all -> en_name e <> mp_type propertyInfo) ->
         generateEnumFilter propertyInfo mainStore = Ok [])
  /\ (forall all e,
         enums mainStore = Some all ->
         NoDup (en_name <$> all) ->
         e ∈ all ->
         en_name e = mp_type propertyInfo ->
         exists items,
           generateEnumFilter propertyInfo mainStore = Ok items
           /\ text <$> items = ev_caption <$> en_values e
           /\ item_value <$> items = ev_name <$> en_values e).
Proof.
  unfold generateEnumFilter, array_find. split; [|split].
  - by intros ->.
  - intros all -> Hnone. by rewrite find_no_name.
  - intros all e -> Hnodup Hin <-. rewrite find_unique_name by done.
    eexists. split; [reflexivity |].
    split; induction (en_values e) as [|v vs IH]; cbn; by rewrite ?IH.
Qed.

(** X15. generateColumnWithCustomFilter throws in these cases and no
    other: the metadata lookup of the property throws, or the caption lookup
    throws, or the property is of ENUM type while the enums of the main
    store are not loaded (a TypeError). *)
Theorem generateColumnWithCustomFilter_throws_iff
    (config : ColumnWithCustomFilterConfig) (e : JSError) :
  generateColumnWithCustomFilter config = Err e
  <-> getPropertyInfoNN (cfg_propertyName config) (cfg_entityName config)
                        (metadata (cfg_mainStore config)) = Err e
      \/ exists info,
           getPropertyInfoNN (cfg_propertyName config) (cfg_entityName config)
                             (metadata (cfg_mainStore config)) = Ok info
           /\ (getPropertyCaption (cfg_propertyName config) (cfg_entityName config)
                                  (messages (cfg_mainStore config)) = Err e
               \/ (exists caption,
                      getPropertyCaption (cfg_propertyName config) (cfg_entityName config)
                                         (messages (cfg_mainStore config)) = Ok caption)
                  /\ attributeType info = "ENUM"
                  /\ enums (cfg_mainStore config) = None
                  /\ e = TypeError).
Proof.
  unfold generateColumnWithCustomFilter. split.
  - destruct (getPropertyInfoNN _ _ _) as [info|e0]; [|intros [= ->]; by left].
    cbn [mbind result_bind]. intros Hthrow. right. exists info. split; [done |].
    destruct (getPropertyCaption _ _ _) as [caption|e0]; [|left; by inversion Hthrow].
    cbn [mbind result_bind] in Hthrow. right. split; [by eexists |].
    destruct (String.eqb_spec (attributeType info) "ENUM") as [Henum|]; [|done].
    split; [done |]. unfold generateEnumFilter in Hthrow.
    destruct (enums (cfg_mainStore config)) as [all|].
    + by destruct (array_find _ all).
    + by inversion Hthrow.
  - intros [-> | (info & -> & Hcause)]; [done |]. cbn [mbind result_bind].
    destruct Hcause as [-> | ([caption ->] & -> & Henums & ->)]; [done |].
    cbn [mbind result_bind]. unfold generateEnumFilter. by rewrite Henums.
Qed.

(** X16. Every column that generateColumnWithCustomFilter returns has the
    property name as key, the [enableSorter] flag as sorter, and a title
    showing the caption of the property both as tooltip and as text. Its
    [filteredValue] is [null], not [undefined], whenever the [filters]
    object is absent or holds no truthy entry for the property, and is
    [toJS] of the entry otherwise. Exactly one of [filters] and
    [filterDropdown] is present. *)
Theorem generateColumnWithCustomFilter_column
    (config : ColumnWithCustomFilterConfig) (column : ColumnProps) :
  generateColumnWithCustomFilter config = Ok column ->
  key column = cfg_propertyName config
  /\ sorter column = cfg_enableSorter config
  /\ getPropertyCaption (cfg_propertyName config) (cfg_entityName config)
                        (messages (cfg_mainStore config))
     = Ok (div_title (title column))
  /\ div_children (title column) = div_title (title column)
  /\ (forall fs v,
         cfg_filters config = Some fs -> fs !! cfg_propertyName config = Some v ->
         js_truthy v = true -> filteredValue column = toJS v)
  /\ ((cfg_filters config = None
       \/ exists fs, cfg_filters config = Some fs
                     /\ (fs !! cfg_propertyName config = None
                         \/ exists v, fs !! cfg_propertyName config = Some v
                                      /\ js_truthy v = false)) ->
      filteredValue column = JNull)
  /\ (is_Some (filters column) <-> filterDropdown column = None).
Proof.
  unfold generateColumnWithCustomFilter.
  destruct (getPropertyInfoNN _ _ _) as [info|]; [|done]. cbn [mbind result_bind].
  destruct (getPropertyCaption _ _ _) as [caption|]; [|done]. cbn [mbind result_bind].
  assert (forall fv,
            fv = match cfg_filters config with
                 | Some fs =>
                     match fs !! cfg_propertyName config with
                     | Some v => if js_truthy v then toJS v else JNull
                     | None => JNull
                     end
                 | None => JNull
                 end ->
            (forall fs v,
                cfg_filters config = Some fs -> fs !! cfg_propertyName config = Some v ->
                js_truthy v = true -> fv = toJS v)
            /\ ((cfg_filters config = None
                 \/ exists fs, cfg_filters config = Some fs
                               /\ (fs !! cfg_propertyName config = None
                                   \/ exists v, fs !! cfg_propertyName config = Some v
                                                /\ js_truthy v = false)) ->
                fv = JNull)) as Hfiltered.
  { intros fv ->. split.
    - intros fs v -> -> ->. done.
    - intros [-> | (fs & -> & [-> | (v & -> & ->)])]; done. }
  destruct (String.eqb (attributeType info) "ENUM").
  - destruct (generateEnumFilter info _) as [items|]; [|done]. cbn [mbind result_bind].
    intros [= <-]. cbn [key sorter title div_title div_children filteredValue
                        filters filterDropdown].
    destruct (Hfiltered _ eq_refl) as [Hset Hnull].
    repeat split; try done; by eexists.
  - intros [= <-]. cbn [key sorter title div_title div_children filteredValue
                        filters filterDropdown].
    destruct (Hfiltered _ eq_refl) as [Hset Hnull].
    repeat split; try done; by intros [? [=]].
Qed.

End ColumnEdgeCases.

Lemma generateEnumFilter_cases_witness :
  exists items,
    generateEnumFilter
      {| mp_name := "carType"; mp_type := "com.company.scr.entity.CarType";
         attributeType := "ENUM" |} Sample.mainStore = Ok items
    /\ text <$> items = ["Sedan"; "Hatchback"]
    /\ item_value <$> items = ["SEDAN"; "HATCHBACK"].
Proof.
  apply (proj2 (proj2 (generateEnumFilter_cases
                         {| mp_name := "carType"; mp_type := "com.company.scr.entity.CarType";
                            attributeType := "ENUM" |} Sample.mainStore))
               [ {| en_name := "com.company.scr.entity.CarType";
                    en_values := [ {| ev_name := "SEDAN"; ev_caption := "Sedan" |};
                                   {| ev_name := "HATCHBACK"; ev_caption := "Hatchback" |} ] |} ]
               {| en_name := "com.company.scr.entity.CarType";
                  en_values := [ {| ev_name := "SEDAN"; ev_caption := "Sedan" |};
                                 {| ev_name := "HATCHBACK"; ev_caption := "Hatchback" |} ] |}).
  - reflexivity.
  - apply (bool_decide_unpack _). vm_compute. exact I.
  - left.
  - reflexivity.
Defined.

Lemma generateColumnWithCustomFilter_column_witness :
  exists column,
    generateColumnWithCustomFilter (sampleConfig "carType") = Ok column
    /\ key column = "carType"
    /\ filteredValue column = JArr [JStr "SEDAN"].
Proof.
  assert (dataIndex <$> generateColumnWithCustomFilter (sampleConfig "carType")
          = Ok "carType") as Hindex by (vm_compute; reflexivity).
  destruct (generateColumnWithCustomFilter (sampleConfig "carType")) as [column|] eqn:Hcolumn;
    [|discriminate Hindex].
  destruct (generateColumnWithCustomFilter_column (Ext := Sample.externals)
              (sampleConfig "carType") column Hcolumn)
    as (Hkey & _ & _ & _ & Hset & _ & _).
  exists column. split; [reflexivity |]. split; [exact Hkey |].
  apply (Hset {[ "carType" := JArr [JStr "SEDAN"] ]} (JArr [JStr "SEDAN"]));
    first [reflexivity | vm_compute; reflexivity].
Defined.

(** ** How the setters compose *)

Lemma callback_reads_entityName `{Ext : Externals}
    tableFilters mainStore (dc dc' : DataCollectionStore) acc p :
  entityName dc' = entityName dc ->
  setFilters_callback tableFilters mainStore dc' acc p
  = setFilters_callback tableFilters mainStore dc acc p.
Proof. intros Hname. unfold setFilters_callback. by rewrite Hname. Qed.

Lemma setSorter_outcome (sorter : option SorterResult) (defaultSort : string) :
  exists v, forall w,
    setSorter sorter defaultSort w
    = Returns tt {| store := with_sort v (store w);
                    trace := trace w ++ [Assign "sort"] |}.
Proof.
  unfold setSorter. destruct sorter as [[[o|] f k]|]; cbn [order field]; by eexists.
Qed.

Lemma setPagination_outcome (pagination : option PaginationConfig) :
  (forall w, setPagination pagination w = Returns tt w)
  \/ exists size start, forall w,
       setPagination pagination w
       = Returns tt {| store := with_offset start (with_limit size (store w));
                       trace := (trace w ++ [Assign "limit"]) ++ [Assign "offset"] |}.
Proof.
  unfold setPagination.
  destruct pagination as [[[size|] [page|]]|]; cbn [pageSize current]; try by left.
  destruct (negb (size =? 0) && negb (page =? 0)); [|by left].
  right. by eexists _, _.
Qed.

Section Composition.

Context `{Ext : Externals}.

Lemma setFilters_outcome_any tableFilters fields mainStore w w1 :
  setFilters tableFilters fields mainStore w = Returns tt w1 ->
  exists entityFilter,
    forall w0, entityName (store w0) = entityName (store w) ->
      setFilters tableFilters fields mainStore w0
      = Returns tt {| store := with_filter entityFilter (store w0);
                      trace := trace w0 ++ [Assign "filter"] |}.
Proof.
  destruct tableFilters as [tf|].
  - rewrite setFilters_outcome.
    destruct (forEach _ fields None) as [ef|] eqn:Hpass; [|done].
    intros _. exists ef. intros w0 Hname. rewrite setFilters_outcome.
    rewrite (forEach_ext _ (setFilters_callback tf mainStore (store w))), Hpass; [done |].
    intros acc p. by apply callback_reads_entityName.
  - intros _. by exists None.
Qed.

(** X17. What setFilters stores depends on the collection through its
    entity name only: when it returns on one collection, it returns on every
    collection of the same entity, whatever filter, sort, limit and offset
    that one holds, and stores the same filter. In particular running it a
    second time changes nothing in the store. *)
Theorem setFilters_depends_on_entityName_only
    (tableFilters : option (gmap string (option (list string))))
    (fields : list string) (mainStore : MainStore) (w w1 : World) :
  setFilters tableFilters fields mainStore w = Returns tt w1 ->
  (forall w0, entityName (store w0) = entityName (store w) ->
     exists w0', setFilters tableFilters fields mainStore w0 = Returns tt w0'
                 /\ filter (store w0') = filter (store w1))
  /\ (exists w2, setFilters tableFilters fields mainStore w1 = Returns tt w2
                 /\ store w2 = store w1).
Proof.
  intros Hrun. destruct (setFilters_outcome_any _ _ _ _ _ Hrun) as [ef Hany].
  assert (w1 = {| store := with_filter ef (store w);
                  trace := trace w ++ [Assign "filter"] |}) as ->.
  { rewrite Hany in Hrun by done. by injection Hrun. }
  split.
  - intros w0 Hname. rewrite Hany by done. by eexists.
  - rewrite Hany by done. by eexists.
Qed.

(** X18. The three setters may run in any order: setSorter and
    setPagination always commute, and each of them commutes with setFilters
    whenever setFilters returns; the store is the same after either order. *)
Theorem setters_commute
    (tableFilters : option (gmap string (option (list string))))
    (fields : list string) (mainStore : MainStore)
    (sorter : option SorterResult) (defaultSort : string)
    (pagination : option PaginationConfig) (w w1 : World) :
  setFilters tableFilters fields mainStore w = Returns tt w1 ->
  store (final ((setSorter sorter defaultSort ;;
                 setFilters tableFilters fields mainStore) w))
  = store (final ((setFilters tableFilters fields mainStore ;;
                   setSorter sorter defaultSort) w))
  /\ store (final ((setPagination pagination ;;
                    setFilters tableFilters fields mainStore) w))
     = store (final ((setFilters tableFilters fields mainStore ;;
                      setPagination pagination) w))
  /\ store (final ((setPagination pagination ;; setSorter sorter defaultSort) w))
     = store (final ((setSorter sorter defaultSort ;; setPagination pagination) w)).
Proof.
  intros Hrun. destruct (setFilters_outcome_any _ _ _ _ _ Hrun) as [ef Hfilters].
  destruct (setSorter_outcome sorter defaultSort) as [v Hsorter].
  rewrite !run_bind, !Hsorter.
  destruct (setPagination_outcome pagination) as [Hsame | (size & start & Hpaging)].
  - rewrite !Hsame, !Hsorter, !Hfilters by done. rewrite !Hsorter, !Hsame. done.
  - rewrite !Hpaging, !Hsorter, !Hfilters by done. rewrite !Hsorter, !Hpaging. done.
Qed.

(** X19. When setFilters throws on the change, handleTableChange throws
    the same error at once: nothing is assigned, setSorter and setPagination
    do not run, [load] is not called, and the world is as before. *)
Theorem handleTableChange_aborts (dto : TableChangeDTO) (w w' : World) (e : JSError) :
  setFilters (dto_filters dto) (dto_fields dto) (dto_mainStore dto) w = Throws e w' ->
  handleTableChange dto w = Throws e w
  /\ performed dto w = [].
Proof.
  intros Hthrow.
  assert (w' = w) as ->.
  { destruct (dto_filters dto) as [tf|]; [|done].
    rewrite setFilters_outcome in Hthrow.
    destruct (forEach _ _ None); by inversion Hthrow. }
  assert (handleTableChange dto w = Throws e w) as Hrun.
  { unfold handleTableChange. by rewrite run_bind, Hthrow. }
  split; [exact Hrun |].
  unfold performed. rewrite Hrun. cbn [final]. by rewrite drop_all.
Qed.

End Composition.

(** X20. Pages tile the rows: with a non-zero page size, the offset set
    for the page after [page] is the offset set for [page] plus the limit,
    whatever the state of the collection. *)
Theorem setPagination_consecutive_pages (size page : Z) (w w0 : World) :
  size <> 0 -> page <> 0 -> page + 1 <> 0 ->
  exists start,
    offset (store (final (setPagination (Some {| pageSize := Some size;
                                                 current := Some page |}) w)))
    = Some start
    /\ limit (store (final (setPagination (Some {| pageSize := Some size;
                                                   current := Some page |}) w)))
       = Some size
    /\ offset (store (final (setPagination (Some {| pageSize := Some size;
                                                    current := Some (page + 1) |}) w0)))
       = Some (start + size).
Proof.
  intros Hsize Hpage Hnext. unfold setPagination. cbn [pageSize current].
  rewrite !(proj2 (Z.eqb_neq size 0)), !(proj2 (Z.eqb_neq page 0)),
    !(proj2 (Z.eqb_neq (page + 1) 0)) by done.
  eexists. split; [reflexivity |]. split; [reflexivity |].
  cbv [mbind M_bind assign_limit assign_offset assign final store offset
       with_offset with_limit].
  f_equal. ring.
Qed.

Lemma setFilters_depends_on_entityName_only_witness :
  exists w2,
    setFilters (Ext := Sample.externals) (Some sampleTableFilters) ["model"; "carType"]
               Sample.mainStore
               (final (setFilters (Ext := Sample.externals) (Some sampleTableFilters)
                                  ["model"; "carType"] Sample.mainStore Sample.world))
    = Returns tt w2
    /\ store w2
       = store (final (setFilters (Ext := Sample.externals) (Some sampleTableFilters)
                                  ["model"; "carType"] Sample.mainStore Sample.world)).
Proof.
  apply (proj2 (setFilters_depends_on_entityName_only (Ext := Sample.externals)
                  (Some sampleTableFilters) ["model"; "carType"] Sample.mainStore
                  Sample.world
                  (final (setFilters (Ext := Sample.externals) (Some sampleTableFilters)
                                     ["model"; "carType"] Sample.mainStore Sample.world))
                  ltac:(vm_compute; reflexivity))).
Defined.

Lemma setters_commute_witness :
  store (final ((setSorter (dto_sorter sampleChange) (dto_defaultSort sampleChange) ;;
                 setFilters (Ext := Sample.externals) (dto_filters sampleChange)
                            (dto_fields sampleChange) (dto_mainStore sampleChange))
                  Sample.world))
  = store (final ((setFilters (Ext := Sample.externals) (dto_filters sampleChange)
                              (dto_fields sampleChange) (dto_mainStore sampleChange) ;;
                   setSorter (dto_sorter sampleChange) (dto_defaultSort sampleChange))
                    Sample.world)).
Proof.
  apply (proj1 (setters_commute (Ext := Sample.externals)
                  (dto_filters sampleChange) (dto_fields sampleChange)
                  (dto_mainStore sampleChange)
                  (dto_sorter sampleChange) (dto_defaultSort sampleChange)
                  (dto_pagination sampleChange) Sample.world
                  (final (setFilters (Ext := Sample.externals) (dto_filters sampleChange)
                                     (dto_fields sampleChange) (dto_mainStore sampleChange)
                                     Sample.world))
                  ltac:(vm_compute; reflexivity))).
Defined.

Lemma handleTableChange_aborts_witness :
  handleTableChange (Ext := Sample.externals) malformedChange Sample.world
  = Throws SyntaxError Sample.world
  /\ performed (Ext := Sample.externals) malformedChange Sample.world = [].
Proof.
  apply (handleTableChange_aborts (Ext := Sample.externals) malformedChange
           Sample.world Sample.world SyntaxError).
  vm_compute. reflexivity.
Defined.

Lemma setPagination_consecutive_pages_witness :
  exists start,
    offset (store (final (setPagination (Some {| pageSize := Some 25; current := Some 3 |})
                                        Sample.world))) = Some start
    /\ limit (store (final (setPagination (Some {| pageSize := Some 25; current := Some 3 |})
                                          Sample.world))) = Some 25
    /\ offset (store (final (setPagination (Some {| pageSize := Some 25;
                                                    current := Some (3 + 1) |})
                                           Sample.world))) = Some (start + 25).
Proof.
  apply (setPagination_consecutive_pages 25 3 Sample.world Sample.world); lia.
Defined.
